(** * klicker-api: the GraphQL root schema and the HTTP server entry point

    A shallow embedding of [src/schema.js] (the root type definitions and the
    resolver map) and of [src/server.js] (start-up checks, JWT extraction and
    the GraphQL endpoint), followed by the properties the specification states
    about the RPC boundary. *)

From Stdlib Require Import Ascii String ZArith.
From stdpp Require Import base option list strings gmap.

Local Open Scope string_scope.

(** ** JavaScript values

    Only what the two files inspect: property access on objects and the
    truthiness test of [if (...)] and [&&].  Numbers are kept to the integers
    and NaN, which is all that truthiness distinguishes. *)
Module JS.

#[warnings="-register-all"]
Inductive value : Type :=
  | Undefined
  | Null
  | Bool (b : bool)
  | Num (n : Z)
  | NaN
  | Str (s : string)
  | Arr (l : list value)
  | Obj (o : gmap string value).

(** ToBoolean *)
Definition truthy (v : value) : bool :=
  match v with
  | Undefined | Null | NaN => false
  | Bool b => b
  | Num n => negb (n =? 0)%Z
  | Str s => negb (String.eqb s "")
  | Arr _ | Obj _ => true
  end.

(** [obj.k] on an object: an absent property reads as [undefined]. *)
Definition get (obj : gmap string value) (k : string) : value :=
  default Undefined (obj !! k).

(** An object literal [{ k1: v1, k2: v2, ... }]: properties are set from left
    to right, a repeated key keeps its last value. *)
Definition object {A : Type} (props : list (string * A)) : gmap string A :=
  foldl (fun o p => <[p.1 := p.2]> o) ∅ props.

(** [s.split(sep)] for a one-character separator. *)
Fixpoint split (sep : ascii) (s : string) : list string :=
  match s with
  | EmptyString => [EmptyString]
  | String c rest =>
      if Ascii.eqb c sep then EmptyString :: split sep rest
      else match split sep rest with
           | w :: ws => String c w :: ws
           | [] => [String c EmptyString]
           end
  end.

(** [arr[i]] on an array of strings. *)
Definition index (arr : list string) (i : nat) : value :=
  match arr !! i with
  | Some s => Str s
  | None => Undefined
  end.

(** [s.includes(c)] for a one-character [c]. *)
Fixpoint includes (c : ascii) (s : string) : bool :=
  match s with
  | EmptyString => false
  | String d rest => Ascii.eqb d c || includes c rest
  end.

(** [arr.join(sep)] on an array of strings. *)
Fixpoint join (sep : string) (arr : list string) : string :=
  match arr with
  | [] => ""
  | [x] => x
  | x :: rest => x ++ sep ++ join sep rest
  end.

(** [v.k] for a key [k] that no prototype defines: the property of an
    object, [undefined] on any other value, and a TypeError ([None]) on
    [null] and [undefined]. *)
Definition member (v : value) (k : string) : option value :=
  match v with
  | Undefined | Null => None
  | Obj o => Some (get o k)
  | Bool _ | Num _ | NaN | Str _ | Arr _ => Some Undefined
  end.

End JS.

(** ** GraphQL schema language

    The abstract syntax of the fragment of the schema language that the root
    document of [typeDefs] uses, and its concrete rendering. *)
Module GraphQL.

Inductive type : Type :=
  | Named (n : string)
  | NonNull (t : type)
  | ListOf (t : type).

Record argument := arg { arg_name : string; arg_type : type }.

Record field := fld {
  field_name : string;
  field_args : list argument;
  field_type : type
}.

Record object_type := object {
  type_name : string;
  type_fields : list field
}.

Record schema_block := {
  query : string;
  mutation : string;
  subscription : string
}.

Record document := {
  scalars : list string;
  schema : schema_block;
  types : list object_type
}.

Definition ID : type := Named "ID".
Definition Int : type := Named "Int".
Definition String' : type := Named "String".

Definition nl : string := String "010"%char EmptyString.

Fixpoint render_type (t : type) : string :=
  match t with
  | Named n => n
  | NonNull t => render_type t ++ "!"
  | ListOf t => "[" ++ render_type t ++ "]"
  end.

Definition render_argument (a : argument) : string :=
  arg_name a ++ ": " ++ render_type (arg_type a).

Fixpoint sep_by (sep : string) (l : list string) : string :=
  match l with
  | [] => ""
  | [x] => x
  | x :: rest => x ++ sep ++ sep_by sep rest
  end.

Definition render_arguments (l : list argument) : string :=
  match l with
  | [] => ""
  | _ => "(" ++ sep_by ", " (render_argument <$> l) ++ ")"
  end.

Definition render_field (f : field) : string :=
  "    " ++ field_name f ++ render_arguments (field_args f) ++ ": "
  ++ render_type (field_type f) ++ nl.

Definition render_object (o : object_type) : string :=
  "  type " ++ type_name o ++ " {" ++ nl
  ++ String.concat "" (render_field <$> type_fields o)
  ++ "  }" ++ nl.

Definition render_schema (s : schema_block) : string :=
  "  schema {" ++ nl
  ++ "    query: " ++ query s ++ nl
  ++ "    mutation: " ++ mutation s ++ nl
  ++ "    subscription: " ++ subscription s ++ nl
  ++ "  }" ++ nl.

Definition render (d : document) : string :=
  nl ++ String.concat "" ((fun s => "  scalar " ++ s ++ nl) <$> scalars d)
  ++ nl ++ render_schema (schema d)
  ++ nl ++ sep_by nl (render_object <$> types d).

(** The fields of the object type called [n], if the document declares it. *)
Definition fields_of (d : document) (n : string) : list field :=
  match List.find (fun o => String.eqb (type_name o) n) (types d) with
  | Some o => type_fields o
  | None => []
  end.

(** The declarations of a field name inside a list of fields. *)
Definition declarations (fs : list field) (n : string) : list field :=
  List.filter (fun f => String.eqb (field_name f) n) fs.

(** The field declares an argument called [n]. *)
Definition takes (n : string) (f : field) : bool :=
  existsb (fun a => String.eqb (arg_name a) n) (field_args f).

End GraphQL.

(** ** schema.js *)
Module Schema.
Import GraphQL.

(** The resolver functions that the head of the file imports from
    [./resolvers/*] (lines 4-60). *)
Inductive imported : Set :=
  | requestPresignedURL
  | allQuestions | createQuestion | questionsByPV | questionByPV | question
  | modifyQuestion | archiveQuestions | deleteQuestions
  | questionInstancesByPV | addResponse | deleteResponse | responsesByPV
  | resultsByPV
  | addFeedback | deleteFeedback | addConfusionTS | allSessions
  | createSession | pauseSession | cancelSession | endSession | joinSession
  | runningSession | sessionByPV | sessionsByPV | startSession
  | updateSessionSettings | activateNextBlock | runtimeByPV | session
  | modifySession | deleteSessions
  | allTags | tags
  | createUser | modifyUser | login | logout | user | authUser
  | changePassword | requestPassword | hmac | checkAvailability
  | requestAccountDeletion | resolveAccountDeletion | activateAccount
  | files
  | confusionAdded | feedbackAdded.

(** The third argument of every resolver, built by the endpoint as
    [{ auth: req.auth, res }]. *)
Record Context := { auth : JS.value; res : JS.value }.

(** What an imported resolver ends in. *)
Inductive Result : Type :=
  | Returned (v : JS.value)
  | Thrown (e : JS.value).

(** What a call of an entry of the resolver map ends in: the result of the
    resolver, or the rejection raised by [requireAuth] before it. *)
Inductive Outcome : Type :=
  | Resolved (r : Result)
  | Rejected.

(** One call of an entry of the resolver map: the imported functions that
    were entered, in order, and the outcome. *)
Record Run := { calls : list imported; outcome : Outcome }.

(** [(parentValue, args, context) => ...] *)
Definition Resolver : Type :=
  JS.value -> gmap string JS.value -> Context -> Run.

(** The modules of the repository that the two files require and that are
    kept abstract: [./services/accounts] (the test behind [requireAuth]),
    [./resolvers/*] (what each imported function computes), [./services/auth]
    ([isValidJWT(token, secret)], the secret being optional), [./types]
    ([allTypes]) and the token verification done inside express-jwt. *)
Class Collaborators := {
  authenticated : Context -> bool;
  body : imported -> JS.value -> gmap string JS.value -> Context -> Result;
  isValidJWT : string -> option string -> bool;
  allTypes : list string;
  verify : string -> option string -> option JS.value
}.

Section resolvers.
Context `{Collaborators}.

(** An imported resolver, as a value of the resolver map: entering it is
    recorded, its result is the one of the missing module. *)
Definition the (f : imported) : Resolver :=
  fun parentValue args context =>
    {| calls := [f];
       outcome := Resolved (body f parentValue args context) |}.

(** Modelled from the spec: [requireAuth] of [./services/accounts], which is
    not among the sources.  Section 6 makes it the external "authenticated
    owner" predicate that must have passed before the operation is invoked:
    the wrapped resolver runs only when the predicate holds of the context,
    and the call is rejected otherwise. *)
Definition requireAuth (wrapped : Resolver) : Resolver :=
  fun parentValue args context =>
    if authenticated context then wrapped parentValue args context
    else {| calls := []; outcome := Rejected |}.

(** [resolvers.Query] (lines 138-149) *)
Definition Query : gmap string Resolver :=
  JS.object
    [ ("allQuestions", requireAuth (the allQuestions));
      ("allSessions", requireAuth (the allSessions));
      ("allTags", requireAuth (the allTags));
      ("checkAvailability", the checkAvailability);
      ("joinSession", the joinSession);
      ("question", requireAuth (the question));
      ("runningSession", requireAuth (the runningSession));
      ("session", requireAuth (the session));
      ("sessionPublic", the session);
      ("user", requireAuth (the authUser)) ].

(** [resolvers.Mutation] (lines 150-179) *)
Definition Mutation : gmap string Resolver :=
  JS.object
    [ ("activateAccount", the activateAccount);
      ("archiveQuestions", requireAuth (the archiveQuestions));
      ("addFeedback", the addFeedback);
      ("deleteFeedback", requireAuth (the deleteFeedback));
      ("addConfusionTS", the addConfusionTS);
      ("addResponse", the addResponse);
      ("changePassword", requireAuth (the changePassword));
      ("createQuestion", requireAuth (the createQuestion));
      ("createSession", requireAuth (the createSession));
      ("createUser", the createUser);
      ("deleteQuestions", requireAuth (the deleteQuestions));
      ("deleteResponse", requireAuth (the deleteResponse));
      ("deleteSessions", requireAuth (the deleteSessions));
      ("endSession", requireAuth (the endSession));
      ("login", the login);
      ("logout", the logout);
      ("modifyQuestion", requireAuth (the modifyQuestion));
      ("modifySession", requireAuth (the modifySession));
      ("modifyUser", requireAuth (the modifyUser));
      ("pauseSession", requireAuth (the pauseSession));
      ("cancelSession", requireAuth (the cancelSession));
      ("requestAccountDeletion", requireAuth (the requestAccountDeletion));
      ("resolveAccountDeletion", requireAuth (the resolveAccountDeletion));
      ("requestPassword", the requestPassword);
      ("requestPresignedURL", requireAuth (the requestPresignedURL));
      ("startSession", requireAuth (the startSession));
      ("updateSessionSettings", requireAuth (the updateSessionSettings));
      ("activateNextBlock", requireAuth (the activateNextBlock)) ].

(** [resolvers.Subscription] (lines 180-184); the source notes
    "TODO: some form of authentication". *)
Definition Subscription : gmap string Resolver :=
  JS.object
    [ ("confusionAdded", the confusionAdded);
      ("feedbackAdded", the feedbackAdded) ].

End resolvers.

(** [QuestionOptions.__resolveType] (lines 192-202) *)
Definition QuestionOptions__resolveType
    (obj : gmap string JS.value) : option string :=
  if JS.truthy (JS.get obj "FREE_RANGE") then Some "FREEQuestionOptions"
  else if JS.truthy (JS.get obj "SC") || JS.truthy (JS.get obj "MC")
  then Some "SCQuestionOptions"
  else None.

(** [QuestionInstance_Results.__resolveType] (lines 228-238); [None] is the
    [null] of the last line.  The argument is the results object of a
    question instance. *)
Definition QuestionInstance_Results__resolveType
    (obj : gmap string JS.value) : option string :=
  if JS.truthy (JS.get obj "FREE") then Some "FREEQuestionResults"
  else if JS.truthy (JS.get obj "CHOICES") then Some "SCQuestionResults"
  else None.

(** The three root operation types of the [schema { ... }] block. *)
Inductive operation : Set := query_op | mutation_op | subscription_op.

Definition root `{Collaborators} (o : operation) : gmap string Resolver :=
  match o with
  | query_op => Query
  | mutation_op => Mutation
  | subscription_op => Subscription
  end.

(** Resolution of one root field of a request; [None] when the resolver map
    has no entry for the field. *)
Definition execute `{Collaborators} (o : operation) (fieldName : string)
    (args : gmap string JS.value) (context : Context) : option Run :=
  (fun resolver => resolver JS.Undefined args context) <$> root o !! fieldName.

(** The root document of [typeDefs] (lines 67-127). *)
Definition Query_type : object_type :=
  object "Query" [
    fld "activeInstances" [] (NonNull (ListOf (Named "QuestionInstance")));
    fld "allQuestions" [] (NonNull (ListOf (Named "Question")));
    fld "allSessions" [] (NonNull (ListOf (Named "Session")));
    fld "allTags" [] (NonNull (ListOf (Named "Tag")));
    fld "checkAvailability"
      [arg "email" String';
       arg "shortname" String']
      (NonNull (Named "User_Availability"));
    fld "joinSession"
      [arg "shortname" (NonNull String')]
      (Named "Session_Public");
    fld "question" [arg "id" (NonNull ID)] (Named "Question");
    fld "runningSession" [] (Named "Session");
    fld "session" [arg "id" (NonNull ID)] (Named "Session");
    fld "sessionPublic"
      [arg "id" (NonNull ID)]
      (Named "Session_PublicEvaluation");
    fld "user" [] (Named "User")
  ].

Definition Mutation_type : object_type :=
  object "Mutation" [
    fld "activateAccount"
      [arg "activationToken" (NonNull String')]
      (NonNull String');
    fld "activateNextBlock" [] (NonNull (Named "Session"));
    fld "addConfusionTS"
      [arg "fp" ID;
       arg "sessionId" (NonNull ID);
       arg "difficulty" (NonNull Int);
       arg "speed" (NonNull Int)]
      (NonNull String');
    fld "addFeedback"
      [arg "fp" ID;
       arg "sessionId" (NonNull ID);
       arg "content" (NonNull String')]
      (NonNull String');
    fld "addResponse"
      [arg "fp" ID;
       arg "instanceId" (NonNull ID);
       arg "response" (NonNull (Named "QuestionInstance_ResponseInput"))]
      (NonNull String');
    fld "archiveQuestions"
      [arg "ids" (NonNull (ListOf (NonNull ID)))]
      (NonNull (ListOf (NonNull (Named "Question"))));
    fld "changePassword"
      [arg "newPassword" (NonNull String')]
      (NonNull (Named "User"));
    fld "createQuestion"
      [arg "question" (NonNull (Named "QuestionInput"))]
      (NonNull (Named "Question"));
    fld "createSession"
      [arg "session" (NonNull (Named "SessionInput"))]
      (NonNull (Named "Session"));
    fld "createUser"
      [arg "email" (NonNull String');
       arg "password" (NonNull String');
       arg "shortname" (NonNull String');
       arg "institution" (NonNull String');
       arg "useCase" String']
      (NonNull (Named "User"));
    fld "deleteFeedback"
      [arg "sessionId" (NonNull ID);
       arg "feedbackId" (NonNull ID)]
      (NonNull (Named "Session"));
    fld "deleteQuestions"
      [arg "ids" (NonNull (ListOf (NonNull ID)))]
      (NonNull String');
    fld "deleteResponse"
      [arg "instanceId" (NonNull ID);
       arg "response" (NonNull String')]
      (NonNull String');
    fld "deleteSessions"
      [arg "ids" (NonNull (ListOf (NonNull ID)))]
      (NonNull String');
    fld "endSession" [arg "id" (NonNull ID)] (NonNull (Named "Session"));
    fld "login"
      [arg "email" (NonNull String');
       arg "password" (NonNull String')]
      (NonNull ID);
    fld "logout" [] (NonNull String');
    fld "modifyQuestion"
      [arg "id" (NonNull ID);
       arg "question" (NonNull (Named "QuestionModifyInput"))]
      (NonNull (Named "Question"));
    fld "modifySession"
      [arg "id" (NonNull ID);
       arg "session" (NonNull (Named "SessionModifyInput"))]
      (NonNull (Named "Session"));
    fld "modifyUser"
      [arg "user" (NonNull (Named "User_Modify"))]
      (NonNull (Named "User"));
    fld "pauseSession" [arg "id" (NonNull ID)] (NonNull (Named "Session"));
    fld "cancelSession" [arg "id" (NonNull ID)] (NonNull (Named "Session"));
    fld "requestAccountDeletion" [] (NonNull String');
    fld "resolveAccountDeletion"
      [arg "deletionToken" (NonNull String')]
      (NonNull String');
    fld "requestPassword" [arg "email" (NonNull String')] (NonNull String');
    fld "requestPresignedURL"
      [arg "fileType" (NonNull String')]
      (NonNull (Named "File_PresignedURL"));
    fld "startSession" [arg "id" (NonNull ID)] (NonNull (Named "Session"));
    fld "updateSessionSettings"
      [arg "sessionId" (NonNull ID);
       arg "settings" (NonNull (Named "Session_SettingsInput"))]
      (NonNull (Named "Session"))
  ].

Definition Subscription_type : object_type :=
  object "Subscription" [
    fld "confusionAdded"
      [arg "sessionId" (NonNull ID)]
      (Named "Session_ConfusionTimestep");
    fld "feedbackAdded"
      [arg "sessionId" (NonNull ID)]
      (Named "Session_Feedback")
  ].

Definition rootTypeDefs : document :=
  {| scalars := ["Date"; "Time"; "DateTime"];
     schema := {| query := "Query"; mutation := "Mutation";
                  subscription := "Subscription" |};
     types := [Query_type; Mutation_type; Subscription_type] |}.

(** [typeDefs]: the root document followed by [...allTypes]. *)
Definition typeDefs `{Collaborators} : list string :=
  render rootTypeDefs :: allTypes.

(** [QuestionOptions_Public.__resolveType] (lines 205-215) *)
Definition QuestionOptions_Public__resolveType
    (obj : gmap string JS.value) : option string :=
  if JS.truthy (JS.get obj "FREE_RANGE") then Some "FREEQuestionOptions_Public"
  else if JS.truthy (JS.get obj "SC") || JS.truthy (JS.get obj "MC")
  then Some "SCQuestionOptions_Public"
  else None.

(** The resolvers of the object types (lines 186-267). *)
Module Types.
Section types.
Context `{Collaborators}.

(** The conversion [String(v)], which depends on what [v] is (the source
    applies it to a database id). *)
Variable String : JS.value -> string.

Definition Question : gmap string Resolver :=
  JS.object
    [ ("instances", the questionInstancesByPV);
      ("tags", the tags);
      ("user", the user) ].

(** [pv => String(pv.session)] (line 221): no imported function is entered;
    reading [session] off a [null] parent throws. *)
Definition QuestionInstance_session : Resolver :=
  fun pv _ _ =>
    {| calls := [];
       outcome :=
         Resolved
           match JS.member pv "session" with
           | Some v => Returned (JS.Str (String v))
           | None => Thrown (JS.Str "TypeError")
           end |}.

Definition QuestionInstance : gmap string Resolver :=
  JS.object
    [ ("question", the questionByPV);
      ("responses", the responsesByPV);
      ("results", the resultsByPV);
      ("session", QuestionInstance_session) ].

Definition QuestionInstance_Public : gmap string Resolver :=
  JS.object
    [ ("question", the questionByPV);
      ("results", the resultsByPV) ].

Definition Question_Version : gmap string Resolver :=
  JS.object [ ("files", the files) ].

Definition Question_Version_Public : gmap string Resolver :=
  JS.object [ ("files", the files) ].

Definition Session : gmap string Resolver :=
  JS.object
    [ ("user", the user);
      ("runtime", the runtimeByPV) ].

Definition Session_QuestionBlock : gmap string Resolver :=
  JS.object [ ("instances", the questionInstancesByPV) ].

Definition Session_QuestionBlock_Public : gmap string Resolver :=
  JS.object [ ("instances", the questionInstancesByPV) ].

Definition Tag : gmap string Resolver :=
  JS.object
    [ ("questions", the questionsByPV);
      ("user", the user) ].

Definition User : gmap string Resolver :=
  JS.object
    [ ("questions", the questionsByPV);
      ("runningSession", the sessionByPV);
      ("sessions", the sessionsByPV);
      ("tags", the tags);
      ("files", the files);
      ("hmac", the hmac) ].

End types.
End Types.

(** A value of the [resolvers] object: a scalar of graphql-iso-date, the
    field resolvers of an object type, or the [__resolveType] of a union. *)
Inductive entry : Type :=
  | scalar (name : string)
  | fields (m : gmap string Resolver)
  | union (resolveType : gmap string JS.value -> option string).

(** [resolvers] (lines 133-268) *)
Definition resolvers `{Collaborators} (String : JS.value -> string)
    : gmap string entry :=
  JS.object
    [ ("Date", scalar "GraphQLDate");
      ("Time", scalar "GraphQLTime");
      ("DateTime", scalar "GraphQLDateTime");
      ("Query", fields Query);
      ("Mutation", fields Mutation);
      ("Subscription", fields Subscription);
      ("Question", fields Types.Question);
      ("QuestionOptions", union QuestionOptions__resolveType);
      ("QuestionOptions_Public", union QuestionOptions_Public__resolveType);
      ("QuestionInstance", fields (Types.QuestionInstance String));
      ("QuestionInstance_Public", fields Types.QuestionInstance_Public);
      ("QuestionInstance_Results",
       union QuestionInstance_Results__resolveType);
      ("Question_Version", fields Types.Question_Version);
      ("Question_Version_Public", fields Types.Question_Version_Public);
      ("Session", fields Types.Session);
      ("Session_QuestionBlock", fields Types.Session_QuestionBlock);
      ("Session_QuestionBlock_Public",
       fields Types.Session_QuestionBlock_Public);
      ("Tag", fields Types.Tag);
      ("User", fields Types.User) ].

(** Resolution of the field [fieldName] of a value [pv] of the type
    [typeName]; [None] when [resolvers] has no function for it. *)
Definition resolve `{Collaborators} (String : JS.value -> string)
    (typeName fieldName : string) (pv : JS.value)
    (args : gmap string JS.value) (context : Context) : option Run :=
  match resolvers String !! typeName with
  | Some (fields m) =>
      (fun resolver => resolver pv args context) <$> m !! fieldName
  | _ => None
  end.

(** The name that the [schema] block gives to the type of a root
    operation. *)
Definition root_type (o : operation) : string :=
  match o with
  | query_op => query (schema rootTypeDefs)
  | mutation_op => mutation (schema rootTypeDefs)
  | subscription_op => subscription (schema rootTypeDefs)
  end.

End Schema.

(** ** server.js *)
Module Server.
Import Schema.

(** *** The start-up script

    The top level of the file is a sequence of effects that [process.exit]
    cuts short. *)
Inductive Effect : Type :=
  | console_warn (msg : string)
  | console_log (msg : string)
  | mongoose_connect (url : string)
  | connection_once (event : string)
  | connection_on (event : string)
  | server_use (path : string)
  | server_listen (port : Z)
  | throw (err : JS.value).

Inductive Process (A : Type) : Type :=
  | Exited (trace : list Effect) (code : Z)
  | Alive (trace : list Effect) (a : A).
Arguments Exited {A} trace code.
Arguments Alive {A} trace a.

Definition ret {A} (a : A) : Process A := Alive [] a.

Definition bind {A B} (m : Process A) (k : A -> Process B) : Process B :=
  match m with
  | Exited t c => Exited t c
  | Alive t a =>
      match k a with
      | Exited t' c => Exited (t ++ t') c
      | Alive t' b => Alive (t ++ t') b
      end
  end.

Definition emit (e : Effect) : Process unit := Alive [e] tt.

(** [process.exit(code)] *)
Definition process_exit (code : Z) : Process unit := Exited [] code.

Notation "m ;;; k" := (bind m (fun _ => k))
  (at level 90, right associativity).

Definition trace {A} (p : Process A) : list Effect :=
  match p with
  | Exited t _ => t
  | Alive t _ => t
  end.

Definition exit_code {A} (p : Process A) : option Z :=
  match p with
  | Exited _ c => Some c
  | Alive _ _ => None
  end.

(** [process.env.NAME]: [undefined] when the variable is not set. *)
Definition env_var (env : gmap string string) (name : string) : JS.value :=
  match env !! name with
  | Some s => JS.Str s
  | None => JS.Undefined
  end.

(** [if (!process.env.NAME) { console.warn(msg); process.exit(1) }] *)
Definition require_env (env : gmap string string) (name msg : string)
    : Process unit :=
  if negb (JS.truthy (env_var env name))
  then emit (console_warn msg) ;;; process_exit 1
  else ret tt.

(** Interpolation of [process.env.NAME] into a template literal. *)
Definition interpolate (v : JS.value) : string :=
  match v with
  | JS.Str s => s
  | _ => "undefined"
  end.

(** The top level of server.js (lines 289-347), run on [process.env] as it
    stands once dotenv has been loaded (line 275). *)
Definition main (env : gmap string string) : Process unit :=
  require_env env "MONGO_URL"
    "> Error: Please pass the MONGO_URL as an environment variable." ;;;
  require_env env "JWT_SECRET"
    "> Error: Please pass the JWT_SECRET as an environment variable." ;;;
  emit (mongoose_connect
          ("mongodb://" ++ interpolate (env_var env "MONGO_URL"))) ;;;
  emit (connection_once "open") ;;;
  emit (connection_on "error") ;;;
  emit (server_use "/graphql") ;;;
  emit (server_listen 3000).

(** The callback of [server.listen] (lines 344-347). *)
Definition listening (err : JS.value) : Process unit :=
  if JS.truthy err then emit (throw err) ;;; process_exit 1
  else emit (console_log "> API ready on http://localhost:3000!").

(** *** The [/graphql] endpoint *)

(** The request as the middleware chain passes it on: [req.cookies] (set by
    [cookieParser()]), [req.headers], and the properties that a middleware
    attaches, such as [req.auth]. *)
Record Request := {
  cookies : option (gmap string string);
  headers : gmap string string;
  attached : gmap string JS.value
}.

Definition nonempty (s : string) : bool := negb (String.eqb s "").

Section endpoint.
Context `{Collaborators}.
Variable env : gmap string string.

(** The test of the first [if] of [getToken] (line 323); it yields
    [req.cookies.jwt] when it passes.  [process.env.JWT_SECRET] is read at
    the time of the request. *)
Definition cookie_jwt (req : Request) : option string :=
  c ← cookies req;
  jwt ← c !! "jwt";
  if nonempty jwt && isValidJWT jwt (env !! "JWT_SECRET") then Some jwt
  else None.

(** The test of the second [if] (lines 328-332); it yields
    [req.headers.authorization] when it passes.  [isValidJWT] receives the
    whole header and no secret. *)
Definition bearer_header (req : Request) : option string :=
  a ← headers req !! "authorization";
  if nonempty a
     && match JS.split " " a with
        | w :: _ => String.eqb w "Bearer"
        | [] => false
        end
     && isValidJWT a None
  then Some a
  else None.

(** [getToken] (lines 321-338) *)
Definition getToken (req : Request) : JS.value :=
  match cookie_jwt req with
  | Some jwt => JS.Str jwt
  | None =>
      match bearer_header req with
      | Some a => JS.index (JS.split " " a) 1
      | None => JS.Null
      end
  end.



End endpoint.

End Server.

(** ** The session directory of the specification

    The resolver behind [joinSession] lives in [./resolvers/sessions], which
    is not among the sources; what it has to do is taken from sections 3 and
    4.1 of the specification. *)
Module Engine.

Inductive Status : Set := CREATED | RUNNING | PAUSED | ENDED | CANCELLED.

Inductive BlockStatus : Set := PLANNED | ACTIVE | EXECUTED.

Record QuestionBlock := {
  instances : list string;
  block_status : BlockStatus
}.

Record Session := {
  identity : string;
  owner : string;
  joinCode : string;
  blocks : list QuestionBlock;
  activeIndex : option nat;
  status : Status;
  settings : gmap string JS.value
}.

Definition lower_char (c : ascii) : ascii :=
  let n := nat_of_ascii c in
  if (65 <=? n)%nat && (n <=? 90)%nat then ascii_of_nat (n + 32) else c.

Fixpoint lower (s : string) : string :=
  match s with
  | EmptyString => EmptyString
  | String c rest => String (lower_char c) (lower rest)
  end.

(** Join codes are compared without regard to case. *)
Definition same_code (a b : string) : bool := String.eqb (lower a) (lower b).

(** status ∈ {RUNNING, PAUSED} *)
Definition joinable (st : Status) : bool :=
  match st with
  | RUNNING | PAUSED => true
  | CREATED | ENDED | CANCELLED => false
  end.

(** Modelled from the spec: [joinPublic(code)] of section 4.1, the operation
    behind the [joinSession] resolver of [./resolvers/sessions] (missing from
    the sources): "case-insensitive lookup; returns a read-restricted public
    projection only if status ∈ {RUNNING, PAUSED}; otherwise returns
    not-found".  The projection is left to the caller, the specification
    does not list its fields; [None] is not-found. *)
Definition joinPublic {Public : Type} (project : Session -> Public)
    (sessions : list Session) (code : string) : option Public :=
  match List.find (fun s => same_code (joinCode s) code) sessions with
  | Some s => if joinable (status s) then Some (project s) else None
  | None => None
  end.

End Engine.

(** ** The result aggregate of the specification

    The code that creates and updates the results of a question instance
    ([./resolvers/questionInstances] and the models) is not among the
    sources; [QuestionInstance_Results.__resolveType] only reads them. *)
Module Results.

(** Modelled from the spec: the result aggregate of a question instance
    (sections 3 and 4.3), "one of two shapes, determined by question type: a
    mapping from choice-key to count (single/multiple choice) or an ordered
    list of free-text entries (free response); the shape is fixed per
    instance at creation and never changes". *)
Inductive Aggregate : Type :=
  | ChoiceCounts (counts : gmap string nat)
  | FreeText (entries : list string).

(** The property of the results object under which each shape is stored. *)
Definition tag (a : Aggregate) : string :=
  match a with
  | ChoiceCounts _ => "CHOICES"
  | FreeText _ => "FREE"
  end.

(** The property of the other shape. *)
Definition other_tag (a : Aggregate) : string :=
  match a with
  | ChoiceCounts _ => "FREE"
  | FreeText _ => "CHOICES"
  end.

(** The aggregate as a value: an object of counts or an array of entries. *)
Definition payload (a : Aggregate) : JS.value :=
  match a with
  | ChoiceCounts counts => JS.Obj ((fun n => JS.Num (Z.of_nat n)) <$> counts)
  | FreeText entries => JS.Arr (JS.Str <$> entries)
  end.

(** The GraphQL type of each shape. *)
Definition type_of (a : Aggregate) : string :=
  match a with
  | ChoiceCounts _ => "SCQuestionResults"
  | FreeText _ => "FREEQuestionResults"
  end.

(** A results object holds the aggregate [a]: the aggregate sits under its
    tag and the tag of the other shape is absent; any other property (a
    participant counter, say) may be there as well. *)
Definition holds (obj : gmap string JS.value) (a : Aggregate) : Prop :=
  obj !! tag a = Some (payload a) /\ obj !! other_tag a = None.

(** A value that can be an aggregate: an object or an array. *)
Definition is_aggregate (v : JS.value) : bool :=
  match v with
  | JS.Obj _ | JS.Arr _ => true
  | _ => false
  end.

End Results.

(** ** The RPC boundary of the specification (section 6)

    The operation names that the specification lists, each with the imported
    function that schema.js binds it to, and the predicates in which the
    properties below are phrased. *)
Module Boundary.
Import GraphQL Schema Server.

(** The owner-scoped write operations. *)
Definition owner_writes : list (string * imported) :=
  [ ("createSession", createSession);
    ("startSession", startSession);
    ("pauseSession", pauseSession);
    ("cancelSession", cancelSession);
    ("endSession", endSession);
    ("activateNextBlock", activateNextBlock);
    ("updateSessionSettings", updateSessionSettings);
    ("modifySession", modifySession);
    ("deleteSessions", deleteSessions);
    ("deleteResponse", deleteResponse);
    ("deleteFeedback", deleteFeedback) ].

(** The write operations issued by participants. *)
Definition participant_writes : list (string * imported) :=
  [ ("addResponse", addResponse);
    ("addConfusionTS", addConfusionTS);
    ("addFeedback", addFeedback) ].

(** The fourteen write operations, in the order of the specification. *)
Definition write_operations : list string :=
  [ "createSession"; "startSession"; "pauseSession"; "cancelSession";
    "endSession"; "activateNextBlock"; "updateSessionSettings";
    "modifySession"; "deleteSessions"; "addResponse"; "deleteResponse";
    "addConfusionTS"; "addFeedback"; "deleteFeedback" ].

(** The read operations. *)
Definition read_operations : list (string * imported) :=
  [ ("allSessions", allSessions);
    ("runningSession", runningSession);
    ("session", session);
    ("joinSession", joinSession);
    ("sessionPublic", session) ].

Definition anonymous_reads : list string := ["joinSession"; "sessionPublic"].

(** The subscription channels. *)
Definition channels : list (string * imported) :=
  [ ("confusionAdded", confusionAdded); ("feedbackAdded", feedbackAdded) ].

(** The call that [requireAuth] answers when the predicate fails. *)
Definition rejected : Run := {| calls := []; outcome := Rejected |}.

(** The same collaborators under another "authenticated owner" predicate. *)
Definition with_predicate (p : Context -> bool) (C : Collaborators)
    : Collaborators :=
  {| authenticated := p;
     body := @body C;
     isValidJWT := @isValidJWT C;
     allTypes := @allTypes C;
     verify := @verify C |}.

(** The request carries the cookie [jwt], and it is valid under the secret
    of the environment. *)
Definition valid_cookie `{Collaborators} (env : gmap string string)
    (req : Request) (jwt : string) : Prop :=
  exists c, cookies req = Some c /\ c !! "jwt" = Some jwt /\ jwt <> ""
            /\ isValidJWT jwt (env !! "JWT_SECRET") = true.

(** The request carries an Authorization header whose first word is
    [Bearer] and that [isValidJWT] accepts. *)
Definition valid_bearer `{Collaborators} (req : Request) (a : string) : Prop :=
  headers req !! "authorization" = Some a
  /\ (exists rest, JS.split " " a = "Bearer" :: rest)
  /\ isValidJWT a None = true.

(** The effects that open the database connection or serve requests. *)
Definition serves (e : Effect) : bool :=
  match e with
  | mongoose_connect _ | connection_once _ | connection_on _
  | server_use _ | server_listen _ => true
  | console_warn _ | console_log _ | throw _ => false
  end.

(** The root fields that schema.js binds without [requireAuth]. *)
Definition unguarded (o : operation) : list string :=
  match o with
  | query_op => ["checkAvailability"; "joinSession"; "sessionPublic"]
  | mutation_op =>
      [ "activateAccount"; "addFeedback"; "addConfusionTS"; "addResponse";
        "createUser"; "login"; "logout"; "requestPassword" ]
  | subscription_op => ["confusionAdded"; "feedbackAdded"]
  end.

(** A variable of the environment is usable: set, and not to the empty
    string. *)
Definition usable (env : gmap string string) (name : string) : Prop :=
  exists s, env !! name = Some s /\ s <> "".

End Boundary.

(** ** A concrete stand-in for the missing modules

    Used to run the definitions above on sample requests: the owner is
    authenticated when a payload with a [sub] is attached, every resolver
    returns its arguments, and the only valid token is ["header.payload.sig"]
    under the secret ["s3cret"]. *)
Module Sample.
Import Schema Server Engine.

Definition payload : JS.value :=
  JS.Obj (JS.object [("sub", JS.Str "user-1")]).

Definition is_owner (c : Context) : bool :=
  match auth c with
  | JS.Obj o => JS.truthy (JS.get o "sub")
  | _ => false
  end.

Definition valid (token : string) (secret : option string) : bool :=
  String.eqb token "header.payload.sig"
  && bool_decide (secret = Some "s3cret").

Definition collaborators : Collaborators :=
  {| authenticated := is_owner;
     body := fun _ _ args _ => Returned (JS.Obj args);
     isValidJWT := valid;
     allTypes := [];
     verify := fun t s => if valid t s then Some payload else None |}.

Definition env : gmap string string :=
  JS.object [("MONGO_URL", "localhost:27017/klicker"); ("JWT_SECRET", "s3cret")].

Definition anonymous : Context := {| auth := JS.Undefined; res := JS.Null |}.

Definition owner_context : Context := {| auth := payload; res := JS.Null |}.



Definition choice_counts : gmap string JS.value :=
  JS.object [("CHOICES", JS.Arr [JS.Num 3; JS.Num 1]);
             ("totalParticipants", JS.Num 4)].

Definition lecture (st : Status) : Session :=
  {| identity := "5b0e"; owner := "user-1"; joinCode := "Algo17";
     blocks := [{| instances := ["q1"]; block_status := PLANNED |}];
     activeIndex := None; status := st; settings := ∅ |}.

(** Collaborators whose [isValidJWT] accepts every non-empty string, with
    or without a secret. *)
Definition lenient : Collaborators :=
  {| authenticated := is_owner;
     body := fun _ _ args _ => Returned (JS.Obj args);
     isValidJWT := fun token _ => nonempty token;
     allTypes := [];
     verify := fun t s => if valid t s then Some payload else None |}.

Definition bearer_only : Request :=
  {| cookies := None;
     headers := JS.object [("authorization", "Bearer abc.def.ghi trailing")];
     attached := ∅ |}.

End Sample.

(** * Properties *)

Import GraphQL Schema Server Engine Boundary.

(** Membership in a list that is written out. *)
Ltac listed :=
  solve [repeat first [apply list_elem_of_here | apply list_elem_of_further]].

(** ** The guard *)
Section guard.
Context `{Collaborators}.

Lemma requireAuth_passes (wrapped : Resolver) pv args ctx :
  authenticated ctx = true ->
  requireAuth wrapped pv args ctx = wrapped pv args ctx.
Proof. intros Hauth. unfold requireAuth. by rewrite Hauth. Qed.

Lemma requireAuth_rejects (wrapped : Resolver) pv args ctx :
  authenticated ctx = false ->
  requireAuth wrapped pv args ctx = rejected.
Proof. intros Hauth. unfold requireAuth. by rewrite Hauth. Qed.

Lemma the_calls f pv args ctx : calls (the f pv args ctx) = [f].
Proof. reflexivity. Qed.

(** A guarded resolver is entered only in an authenticated context. *)
Lemma guarded_entered_only_authenticated f g pv args ctx :
  g ∈ calls (requireAuth (the f) pv args ctx) ->
  authenticated ctx = true.
Proof.
  unfold requireAuth. destruct (authenticated ctx); [done|].
  cbn. intros Hin. by apply elem_of_nil in Hin.
Qed.

Lemma owner_writes_bound :
  Forall (fun p => Mutation !! p.1 = Some (requireAuth (the p.2))) owner_writes.
Proof. repeat constructor. Qed.

Lemma participant_writes_bound :
  Forall (fun p => Mutation !! p.1 = Some (the p.2)) participant_writes.
Proof. repeat constructor. Qed.

Lemma read_operations_bound :
  Forall (fun p => Query !! p.1 =
                   Some (if bool_decide (p.1 ∈ anonymous_reads)
                         then the p.2 else requireAuth (the p.2)))
         read_operations.
Proof. repeat constructor. Qed.

Lemma channels_bound :
  Forall (fun p => Subscription !! p.1 = Some (the p.2)) channels.
Proof. repeat constructor. Qed.

End guard.

(** C1: every owner-scoped write operation is bound to its resolver behind
    [requireAuth]: the resolver is entered only when the authenticated-owner
    predicate holds of the context, and the call is rejected without entering
    it otherwise; the three participant writes (addResponse, addConfusionTS,
    addFeedback) are bound to their resolvers directly and are entered in
    every context. *)
Theorem owner_writes_guarded_participant_writes_open `{Collaborators} :
  (forall name f, (name, f) ∈ owner_writes ->
     exists resolver, Mutation !! name = Some resolver /\
       forall pv args ctx,
         (f ∈ calls (resolver pv args ctx) -> authenticated ctx = true)
         /\ (authenticated ctx = true ->
             resolver pv args ctx = the f pv args ctx)
         /\ (authenticated ctx = false -> resolver pv args ctx = rejected))
  /\ (forall name f, (name, f) ∈ participant_writes ->
     exists resolver, Mutation !! name = Some resolver /\
       forall pv args ctx,
         resolver pv args ctx = the f pv args ctx
         /\ calls (resolver pv args ctx) = [f]).
Proof.
  split; intros name f Hin.
  - pose proof owner_writes_bound as Hall.
    rewrite Forall_forall in Hall. specialize (Hall _ Hin). cbn in Hall.
    exists (requireAuth (the f)). split; [exact Hall|].
    intros pv args ctx. split; [|split].
    + apply guarded_entered_only_authenticated.
    + apply requireAuth_passes.
    + apply requireAuth_rejects.
  - pose proof participant_writes_bound as Hall.
    rewrite Forall_forall in Hall. specialize (Hall _ Hin). cbn in Hall.
    exists (the f). split; [exact Hall|]. done.
Qed.

(** C1, on a sample: without an attached payload startSession is rejected
    and its resolver is not entered, while addResponse is. *)
Lemma owner_writes_guarded_participant_writes_open_sample :
  @execute Sample.collaborators mutation_op "startSession" ∅ Sample.anonymous
    = Some rejected
  /\ calls <$> @execute Sample.collaborators mutation_op "addResponse" ∅
                 Sample.anonymous = Some [addResponse].
Proof.
  destruct (@owner_writes_guarded_participant_writes_open Sample.collaborators)
    as [Howner Hopen].
  split.
  - destruct (Howner "startSession" startSession) as (r & Hr & Hspec).
    { listed. }
    unfold execute, root. rewrite Hr. cbn.
    f_equal. by apply (Hspec JS.Undefined ∅ Sample.anonymous).
  - destruct (Hopen "addResponse" addResponse) as (r & Hr & Hspec).
    { listed. }
    unfold execute, root. rewrite Hr. cbn.
    f_equal. by apply (Hspec JS.Undefined ∅ Sample.anonymous).
Defined.

(** C2: among the read operations allSessions, runningSession, session,
    joinSession and sessionPublic, exactly joinSession and sessionPublic are
    bound without the guard, so their resolver is entered for every caller;
    the other three answer a caller that fails the authenticated-owner
    predicate with a rejection and enter their resolver only when it holds. *)
Theorem anonymous_reads_exactly_join_and_public `{Collaborators} :
  forall name f, (name, f) ∈ read_operations ->
    exists resolver, Query !! name = Some resolver /\
      (((name = "joinSession" \/ name = "sessionPublic") /\
         forall pv args ctx, resolver pv args ctx = the f pv args ctx)
       \/ ((name <> "joinSession" /\ name <> "sessionPublic") /\
         forall pv args ctx,
           (authenticated ctx = false -> resolver pv args ctx = rejected)
           /\ (authenticated ctx = true ->
               resolver pv args ctx = the f pv args ctx)
           /\ (f ∈ calls (resolver pv args ctx) ->
               authenticated ctx = true))).
Proof.
  intros name f Hin.
  pose proof read_operations_bound as Hall.
  rewrite Forall_forall in Hall. specialize (Hall _ Hin).
  exists (if bool_decide (name ∈ anonymous_reads)
          then the f else requireAuth (the f)).
  split; [exact Hall|]. clear Hall.
  case_bool_decide as Hopen; unfold anonymous_reads in Hopen;
    rewrite !elem_of_cons, elem_of_nil in Hopen.
  - left. split; [tauto|done].
  - right. split; [tauto|].
    intros pv args ctx. split; [|split].
    + apply requireAuth_rejects.
    + apply requireAuth_passes.
    + apply guarded_entered_only_authenticated.
Qed.

(** C2, on a sample: an anonymous caller enters the resolver of
    sessionPublic and is rejected by session. *)
Lemma anonymous_reads_exactly_join_and_public_sample :
  calls <$> @execute Sample.collaborators query_op "sessionPublic" ∅
              Sample.anonymous = Some [session]
  /\ @execute Sample.collaborators query_op "session" ∅ Sample.anonymous
     = Some rejected.
Proof.
  pose proof (@anonymous_reads_exactly_join_and_public Sample.collaborators)
    as Hreads.
  split.
  - destruct (Hreads "sessionPublic" session) as (r & Hr & Hspec).
    { listed. }
    unfold execute, root. rewrite Hr. cbn. f_equal.
    destruct Hspec as [[_ Hopen]|[[_ Hne] _]]; [|done].
    by rewrite Hopen.
  - destruct (Hreads "session" session) as (r & Hr & Hspec).
    { listed. }
    unfold execute, root. rewrite Hr. cbn. f_equal.
    destruct Hspec as [[[Heq|Heq] _]|[_ Hguard]]; [done|done|].
    by apply Hguard.
Defined.

(** C3: the two subscription channels are bound to their imported resolvers
    without [requireAuth]: for every subscriber (every context) the resolver
    of the channel is entered and its result is the answer, the call is
    never rejected by this layer, and the answer is the same under every
    authenticated-owner predicate. *)
Theorem subscriptions_unauthenticated (C : Collaborators) :
  forall name f, (name, f) ∈ channels ->
    forall args ctx,
      @execute C subscription_op name args ctx
        = Some {| calls := [f];
                  outcome := Resolved (body f JS.Undefined args ctx) |}
      /\ @execute C subscription_op name args ctx <> Some rejected
      /\ forall p : Context -> bool,
           @execute (with_predicate p C) subscription_op name args ctx
           = @execute C subscription_op name args ctx.
Proof.
  intros name f Hin args ctx.
  assert (Hbound : forall C' : Collaborators,
            @Subscription C' !! name = Some (@the C' f)).
  { intros C'. pose proof (@channels_bound C') as Hall.
    rewrite Forall_forall in Hall. exact (Hall _ Hin). }
  assert (Hrun : forall C' : Collaborators,
            @execute C' subscription_op name args ctx
            = Some (@the C' f JS.Undefined args ctx)).
  { intros C'. unfold execute, root. by rewrite Hbound. }
  split; [|split].
  - by rewrite Hrun.
  - rewrite Hrun. unfold the, rejected. congruence.
  - intros p. by rewrite !Hrun.
Qed.

(** C3, on a sample: an anonymous subscriber to confusionAdded enters the
    resolver of the channel. *)
Lemma subscriptions_unauthenticated_sample :
  calls <$> @execute Sample.collaborators subscription_op "confusionAdded" ∅
              Sample.anonymous = Some [confusionAdded].
Proof.
  destruct (subscriptions_unauthenticated Sample.collaborators
              "confusionAdded" confusionAdded) with (args := ∅ : gmap string JS.value)
              (ctx := Sample.anonymous) as (Hrun & _ & _).
  { listed. }
  by rewrite Hrun.
Defined.

(** C8: sessionPublic is bound to the very resolver that session wraps in
    [requireAuth]; in every context that passes the guard both queries
    compute the same thing, and sessionPublic computes it in every other
    context as well. *)
Theorem sessionPublic_is_unguarded_session `{Collaborators} args ctx :
  authenticated ctx = true ->
  (exists resolver,
      Query !! "sessionPublic" = Some resolver
      /\ Query !! "session" = Some (requireAuth resolver))
  /\ execute query_op "session" args ctx
     = execute query_op "sessionPublic" args ctx
  /\ execute query_op "sessionPublic" args ctx
     = Some (the session JS.Undefined args ctx).
Proof.
  intros Hauth. split; [|split].
  - exists (the session). by split.
  - unfold execute, root.
    change (Query !! "session") with (Some (requireAuth (the session))).
    change (Query !! "sessionPublic") with (Some (the session)).
    cbn. by rewrite requireAuth_passes.
  - reflexivity.
Qed.

(** C8, on a sample: for the signed-in owner both queries give one answer. *)
Lemma sessionPublic_is_unguarded_session_sample :
  @execute Sample.collaborators query_op "session" ∅ Sample.owner_context
  = @execute Sample.collaborators query_op "sessionPublic" ∅
      Sample.owner_context.
Proof.
  apply (@sessionPublic_is_unguarded_session Sample.collaborators ∅
           Sample.owner_context).
  vm_compute. reflexivity.
Defined.

(** ** The shape of the results of a question instance *)

Lemma resolveType_free (obj : gmap string JS.value) :
  JS.truthy (JS.get obj "FREE") = true ->
  QuestionInstance_Results__resolveType obj = Some "FREEQuestionResults".
Proof. intros Hfree. unfold QuestionInstance_Results__resolveType. by rewrite Hfree. Qed.

Lemma resolveType_choices (obj : gmap string JS.value) :
  JS.truthy (JS.get obj "FREE") = false ->
  JS.truthy (JS.get obj "CHOICES") = true ->
  QuestionInstance_Results__resolveType obj = Some "SCQuestionResults".
Proof.
  intros Hfree Hchoices. unfold QuestionInstance_Results__resolveType.
  by rewrite Hfree, Hchoices.
Qed.

Lemma resolveType_none (obj : gmap string JS.value) :
  JS.truthy (JS.get obj "FREE") = false ->
  JS.truthy (JS.get obj "CHOICES") = false ->
  QuestionInstance_Results__resolveType obj = None.
Proof.
  intros Hfree Hchoices. unfold QuestionInstance_Results__resolveType.
  by rewrite Hfree, Hchoices.
Qed.

(** An object or an array is truthy, also when it is empty. *)
Lemma aggregate_truthy v : Results.is_aggregate v = true -> JS.truthy v = true.
Proof. by destruct v. Qed.

Lemma get_present (obj : gmap string JS.value) k v :
  obj !! k = Some v -> JS.get obj k = v.
Proof. intros Hk. unfold JS.get. by rewrite Hk. Qed.

Lemma get_absent (obj : gmap string JS.value) k :
  obj !! k = None -> JS.truthy (JS.get obj k) = false.
Proof. intros Hk. unfold JS.get. by rewrite Hk. Qed.

Lemma payload_aggregate a : Results.is_aggregate (Results.payload a) = true.
Proof. by destruct a. Qed.

(** C4: the results of a question instance have one of two shapes, a
    mapping of counts stored under the tag CHOICES or a list of free-text
    entries stored under the tag FREE, and [__resolveType] is the switch on
    that tag: a results object that holds an aggregate resolves to the type
    of its shape, whatever the aggregate contains (an empty list or mapping
    included) and whatever other properties the object has.  For every
    results object: with an aggregate under FREE the answer is the free-text
    shape; with no FREE and an aggregate under CHOICES it is the
    choice-count shape; with neither tag it is no shape; and no other answer
    exists.  On an object that holds an aggregate, a tag is present exactly
    when the answer is the shape of that tag. *)
Theorem results_shape_switch_on_tag :
  (forall obj a, Results.holds obj a ->
     QuestionInstance_Results__resolveType obj = Some (Results.type_of a))
  /\ (forall obj v, obj !! "FREE" = Some v -> Results.is_aggregate v = true ->
        QuestionInstance_Results__resolveType obj
        = Some "FREEQuestionResults")
  /\ (forall obj v, obj !! "FREE" = None -> obj !! "CHOICES" = Some v ->
        Results.is_aggregate v = true ->
        QuestionInstance_Results__resolveType obj = Some "SCQuestionResults")
  /\ (forall obj, obj !! "FREE" = None -> obj !! "CHOICES" = None ->
        QuestionInstance_Results__resolveType obj = None)
  /\ (forall obj,
        QuestionInstance_Results__resolveType obj
          ∈ [Some "FREEQuestionResults"; Some "SCQuestionResults"; None])
  /\ (forall obj a, Results.holds obj a ->
        (is_Some (obj !! "FREE")
           <-> QuestionInstance_Results__resolveType obj
               = Some "FREEQuestionResults")
        /\ (is_Some (obj !! "CHOICES")
           <-> QuestionInstance_Results__resolveType obj
               = Some "SCQuestionResults")).
Proof.
  assert (Hfree : forall obj v, obj !! "FREE" = Some v ->
            Results.is_aggregate v = true ->
            QuestionInstance_Results__resolveType obj
            = Some "FREEQuestionResults").
  { intros obj v Hv Hagg. apply resolveType_free.
    rewrite (get_present obj "FREE" v Hv). by apply aggregate_truthy. }
  assert (Hchoices : forall obj v, obj !! "FREE" = None ->
            obj !! "CHOICES" = Some v -> Results.is_aggregate v = true ->
            QuestionInstance_Results__resolveType obj
            = Some "SCQuestionResults").
  { intros obj v Hnone Hv Hagg.
    apply resolveType_choices; [by apply get_absent|].
    rewrite (get_present obj "CHOICES" v Hv). by apply aggregate_truthy. }
  assert (Hholds : forall obj a, Results.holds obj a ->
            QuestionInstance_Results__resolveType obj
            = Some (Results.type_of a)).
  { intros obj [counts|entries] [Htag Hother]; cbn in *.
    - by apply (Hchoices obj _ Hother Htag).
    - by apply (Hfree obj _ Htag). }
  split; [exact Hholds|]. split; [exact Hfree|]. split; [exact Hchoices|].
  split; [|split].
  - intros obj Hf Hc. apply resolveType_none; by apply get_absent.
  - intros obj. unfold QuestionInstance_Results__resolveType.
    destruct (JS.truthy (JS.get obj "FREE")),
             (JS.truthy (JS.get obj "CHOICES")); listed.
  - intros obj a Hrep. rewrite (Hholds obj a Hrep).
    destruct a as [counts|entries], Hrep as [Htag Hother]; cbn in *;
      rewrite Htag, Hother; split; split;
      first [ done | by eauto | by intros [? ?] ].
Qed.

(** C4, on a sample: a results object with choice counts and a participant
    counter resolves to the choice-count shape. *)
Lemma results_shape_switch_on_tag_sample :
  QuestionInstance_Results__resolveType Sample.choice_counts
  = Some "SCQuestionResults".
Proof.
  destruct results_shape_switch_on_tag as (_ & _ & Hchoices & _).
  by apply (Hchoices Sample.choice_counts (JS.Arr [JS.Num 3; JS.Num 1])).
Defined.

(** ** The root type definitions *)

(** The abstract syntax above renders to the text between the backquotes of
    [typeDefs] (lines 67-127), character for character. *)
Lemma rootTypeDefs_text :
  render rootTypeDefs = "
  scalar Date
  scalar Time
  scalar DateTime

  schema {
    query: Query
    mutation: Mutation
    subscription: Subscription
  }

  type Query {
    activeInstances: [QuestionInstance]!
    allQuestions: [Question]!
    allSessions: [Session]!
    allTags: [Tag]!
    checkAvailability(email: String, shortname: String): User_Availability!
    joinSession(shortname: String!): Session_Public
    question(id: ID!): Question
    runningSession: Session
    session(id: ID!): Session
    sessionPublic(id: ID!): Session_PublicEvaluation
    user: User
  }

  type Mutation {
    activateAccount(activationToken: String!): String!
    activateNextBlock: Session!
    addConfusionTS(fp: ID, sessionId: ID!, difficulty: Int!, speed: Int!): String!
    addFeedback(fp: ID, sessionId: ID!, content: String!): String!
    addResponse(fp: ID, instanceId: ID!, response: QuestionInstance_ResponseInput!): String!
    archiveQuestions(ids: [ID!]!): [Question!]!
    changePassword(newPassword: String!): User!
    createQuestion(question: QuestionInput!): Question!
    createSession(session: SessionInput!): Session!
    createUser(email: String!, password: String!, shortname: String!, institution: String!, useCase: String): User!
    deleteFeedback(sessionId: ID!, feedbackId: ID!): Session!
    deleteQuestions(ids: [ID!]!): String!
    deleteResponse(instanceId: ID!, response: String!): String!
    deleteSessions(ids: [ID!]!): String!
    endSession(id: ID!): Session!
    login(email: String!, password: String!): ID!
    logout: String!
    modifyQuestion(id: ID!, question: QuestionModifyInput!): Question!
    modifySession(id: ID!, session: SessionModifyInput!): Session!
    modifyUser(user: User_Modify!): User!
    pauseSession(id: ID!): Session!
    cancelSession(id: ID!): Session!
    requestAccountDeletion: String!
    resolveAccountDeletion(deletionToken: String!): String!
    requestPassword(email: String!): String!
    requestPresignedURL(fileType: String!): File_PresignedURL!
    startSession(id: ID!): Session!
    updateSessionSettings(sessionId: ID!, settings: Session_SettingsInput!): Session!
  }

  type Subscription {
    confusionAdded(sessionId: ID!): Session_ConfusionTimestep
    feedbackAdded(sessionId: ID!): Session_Feedback
  }
".
Proof. vm_compute. reflexivity. Qed.

Lemma write_operations_declared `{Collaborators} :
  Forall (fun name =>
            length (declarations (fields_of rootTypeDefs "Mutation") name) = 1
            /\ is_Some (Mutation !! name))
         write_operations.
Proof. repeat constructor; by eexists. Qed.

(** C5: the fourteen write operations are fourteen distinct names; each is
    declared exactly once as a field of the mutation root type and has an
    entry in [resolvers.Mutation]; addConfusionTS takes (fp, sessionId,
    difficulty, speed) and addFeedback takes (fp, sessionId, content), [fp]
    being the fingerprint. *)
Theorem write_operations_exposed `{Collaborators} :
  NoDup write_operations
  /\ length write_operations = 14
  /\ mutation (schema rootTypeDefs) = "Mutation"
  /\ (forall name, name ∈ write_operations ->
        length (declarations (fields_of rootTypeDefs "Mutation") name) = 1
        /\ is_Some (Mutation !! name))
  /\ declarations (fields_of rootTypeDefs "Mutation") "addConfusionTS"
     = [ fld "addConfusionTS"
           [ arg "fp" ID; arg "sessionId" (NonNull ID);
             arg "difficulty" (NonNull Int); arg "speed" (NonNull Int) ]
           (NonNull String') ]
  /\ declarations (fields_of rootTypeDefs "Mutation") "addFeedback"
     = [ fld "addFeedback"
           [ arg "fp" ID; arg "sessionId" (NonNull ID);
             arg "content" (NonNull String') ]
           (NonNull String') ].
Proof.
  split; [|split; [|split; [|split; [|split]]]]; try reflexivity.
  - apply (bool_decide_unpack _). by vm_compute.
  - apply Forall_forall, write_operations_declared.
Qed.

(** C5, on a sample: addConfusionTS is declared once and resolved. *)
Lemma write_operations_exposed_sample :
  length (declarations (fields_of rootTypeDefs "Mutation") "addConfusionTS")
    = 1
  /\ is_Some (@Mutation Sample.collaborators !! "addConfusionTS").
Proof.
  destruct (@write_operations_exposed Sample.collaborators)
    as (_ & _ & _ & Hdeclared & _).
  apply Hdeclared. listed.
Defined.

(** C6: the subscription root type declares exactly two fields,
    confusionAdded and feedbackAdded; each takes the single argument
    [sessionId: ID!]; and [resolvers.Subscription] has an entry for these two
    names and for no other. *)
Theorem two_subscription_channels `{Collaborators} :
  subscription (schema rootTypeDefs) = "Subscription"
  /\ field_name <$> fields_of rootTypeDefs "Subscription"
     = ["confusionAdded"; "feedbackAdded"]
  /\ (forall f, f ∈ fields_of rootTypeDefs "Subscription" ->
        field_args f = [arg "sessionId" (NonNull ID)])
  /\ (forall name, is_Some (Subscription !! name)
        <-> name = "confusionAdded" \/ name = "feedbackAdded").
Proof.
  split; [|split; [|split]]; try reflexivity.
  - intros f Hf.
    change (fields_of rootTypeDefs "Subscription")
      with (type_fields Subscription_type) in Hf.
    unfold Subscription_type in Hf. cbn [type_fields] in Hf.
    rewrite !elem_of_cons, elem_of_nil in Hf.
    destruct Hf as [->|[->|[]]]; reflexivity.
  - intros name. unfold Subscription, JS.object. cbn [foldl fst snd].
    rewrite !lookup_insert. rewrite lookup_empty.
    repeat case_decide; subst; split;
      first [ intros _; by auto | intros [? ?]; done | by eauto
            | intros [->| ->]; done ].
Qed.

(** C6, on a sample: no third channel is resolved. *)
Lemma two_subscription_channels_sample :
  ~ is_Some (@Subscription Sample.collaborators !! "sessionUpdated").
Proof.
  destruct (@two_subscription_channels Sample.collaborators)
    as (_ & _ & _ & Honly).
  intros Hsome. apply Honly in Hsome. by destruct Hsome.
Defined.

(** ** Joining a session *)

Lemma joinPublic_designated {Public : Type} (project : Session -> Public)
    sessions code s :
  List.find (fun s => same_code (joinCode s) code) sessions = Some s ->
  joinPublic project sessions code
  = if joinable (status s) then Some (project s) else None.
Proof. intros Hfind. unfold joinPublic. by rewrite Hfind. Qed.

Lemma joinable_spec st : joinable st = true <-> st = RUNNING \/ st = PAUSED.
Proof. destruct st; cbn; intuition congruence. Qed.

(** C7: [joinPublic] answers with the public projection of a session only
    when that session carries the code (case ignored) and is RUNNING or
    PAUSED; when the session that the code designates is CREATED, ENDED or
    CANCELLED, or when no session carries the code, the answer is not-found.
    At the boundary, joinSession takes the required [shortname], may answer
    null (its type [Session_Public] is nullable) and is resolved without the
    guard, for every caller. *)
Theorem joinPublic_only_running_or_paused `{Collaborators}
    {Public : Type} (project : Session -> Public)
    (sessions : list Session) (code : string) :
  (forall p, joinPublic project sessions code = Some p ->
     exists s, s ∈ sessions /\ lower (joinCode s) = lower code
               /\ (status s = RUNNING \/ status s = PAUSED)
               /\ p = project s)
  /\ (forall s,
        List.find (fun s => same_code (joinCode s) code) sessions = Some s ->
        (status s = CREATED \/ status s = ENDED \/ status s = CANCELLED ->
           joinPublic project sessions code = None)
        /\ (status s = RUNNING \/ status s = PAUSED ->
           joinPublic project sessions code = Some (project s)))
  /\ ((forall s, s ∈ sessions -> lower (joinCode s) <> lower code) ->
      joinPublic project sessions code = None)
  /\ declarations (fields_of rootTypeDefs "Query") "joinSession"
     = [ fld "joinSession" [arg "shortname" (NonNull String')]
           (Named "Session_Public") ]
  /\ (forall args ctx,
        execute query_op "joinSession" args ctx
        = Some (the joinSession JS.Undefined args ctx)).
Proof.
  split; [|split; [|split; [|split]]]; try reflexivity.
  - intros p. unfold joinPublic.
    destruct (List.find _ sessions) as [s|] eqn:Hfind; [|done].
    apply find_some in Hfind as [Hin Hcode].
    destruct (joinable (status s)) eqn:Hlive; [|done].
    intros [= <-]. exists s.
    split; [by apply list_elem_of_In|].
    split; [by apply String.eqb_eq|].
    split; [by apply joinable_spec|done].
  - intros s Hfind. rewrite (joinPublic_designated _ _ _ _ Hfind).
    split; intros Hst.
    + by destruct Hst as [->|[->| ->]].
    + by destruct Hst as [->| ->].
  - intros Hnone. unfold joinPublic.
    destruct (List.find _ sessions) as [s|] eqn:Hfind; [|done].
    apply find_some in Hfind as [Hin Hcode].
    apply list_elem_of_In in Hin. apply String.eqb_eq in Hcode.
    by destruct (Hnone s Hin).
Qed.

(** C7, on a sample: the code of an ended lecture, typed in capitals, is
    not found; the same lecture while paused is. *)
Lemma joinPublic_only_running_or_paused_sample :
  joinPublic id [Sample.lecture ENDED] "ALGO17" = None
  /\ joinPublic id [Sample.lecture PAUSED] "ALGO17"
     = Some (Sample.lecture PAUSED).
Proof.
  split.
  - destruct (@joinPublic_only_running_or_paused Sample.collaborators
                Session id [Sample.lecture ENDED] "ALGO17")
      as (_ & Hdesignated & _).
    apply (Hdesignated (Sample.lecture ENDED)); [reflexivity|].
    right. by left.
  - destruct (@joinPublic_only_running_or_paused Sample.collaborators
                Session id [Sample.lecture PAUSED] "ALGO17")
      as (_ & Hdesignated & _).
    apply (Hdesignated (Sample.lecture PAUSED)); [reflexivity|].
    by right.
Defined.

(** ** Token extraction *)
Section tokens.
Context `{Collaborators}.
Variable env : gmap string string.

Lemma nonempty_spec s : nonempty s = true <-> s <> "".
Proof.
  unfold nonempty. rewrite negb_true_iff. apply String.eqb_neq.
Qed.

Lemma cookie_jwt_spec req jwt :
  cookie_jwt env req = Some jwt <-> valid_cookie env req jwt.
Proof.
  unfold cookie_jwt, valid_cookie. split.
  - destruct (cookies req) as [c|]; [cbn|done].
    destruct (c !! "jwt") as [j|] eqn:Hj; [cbn|done].
    destruct (nonempty j) eqn:Hne; [cbn|done].
    destruct (isValidJWT j (env !! "JWT_SECRET")) eqn:Hvalid; [|done].
    intros [= <-]. exists c. by rewrite <- nonempty_spec.
  - intros (c & -> & Hj & Hne & Hvalid). cbn. rewrite Hj. cbn.
    apply nonempty_spec in Hne. by rewrite Hne, Hvalid.
Qed.

Lemma bearer_header_spec req a :
  bearer_header req = Some a <-> valid_bearer req a.
Proof.
  unfold bearer_header, valid_bearer. split.
  - destruct (headers req !! "authorization") as [h|]; [cbn|done].
    destruct (nonempty h); [cbn|done].
    destruct (JS.split " " h) as [|w rest] eqn:Hsplit; [done|].
    destruct (String.eqb w "Bearer") eqn:Hw; [cbn|done].
    apply String.eqb_eq in Hw as ->.
    destruct (isValidJWT h None) eqn:Hvalid; [|done].
    intros [= <-]. rewrite Hsplit. eauto.
  - intros (-> & [rest Hsplit] & Hvalid). cbn.
    rewrite Hsplit, Hvalid.
    assert (Hne : nonempty a = true).
    { apply nonempty_spec. intros ->. discriminate Hsplit. }
    by rewrite Hne.
Qed.

Lemma getToken_null req :
  (forall jwt, ~ valid_cookie env req jwt) ->
  (forall a, ~ valid_bearer req a) ->
  getToken env req = JS.Null.
Proof.
  intros Hcookie Hbearer. unfold getToken.
  destruct (cookie_jwt env req) as [jwt|] eqn:Hc.
  { apply cookie_jwt_spec in Hc. by destruct (Hcookie jwt). }
  destruct (bearer_header req) as [a|] eqn:Hb; [|done].
  apply bearer_header_spec in Hb. by destruct (Hbearer a).
Qed.

End tokens.



(** ** Start-up *)
Section startup.
Variable env : gmap string string.

Lemma env_var_unset name :
  env !! name = None -> JS.truthy (env_var env name) = false.
Proof. intros Hnone. unfold env_var. by rewrite Hnone. Qed.

Lemma env_var_truthy name :
  JS.truthy (env_var env name) = true ->
  exists s, env !! name = Some s /\ s <> "".
Proof.
  unfold env_var. destruct (env !! name) as [s|]; [|done].
  cbn. rewrite negb_true_iff, String.eqb_neq. eauto.
Qed.

Lemma main_without_mongo_url :
  JS.truthy (env_var env "MONGO_URL") = false ->
  main env
  = Exited
      [console_warn
         "> Error: Please pass the MONGO_URL as an environment variable."] 1.
Proof. intros Hmongo. unfold main, require_env. by rewrite Hmongo. Qed.

Lemma main_without_jwt_secret :
  JS.truthy (env_var env "MONGO_URL") = true ->
  JS.truthy (env_var env "JWT_SECRET") = false ->
  main env
  = Exited
      [console_warn
         "> Error: Please pass the JWT_SECRET as an environment variable."] 1.
Proof.
  intros Hmongo Hsecret. unfold main, require_env.
  by rewrite Hmongo, Hsecret.
Qed.

Lemma main_with_both :
  JS.truthy (env_var env "MONGO_URL") = true ->
  JS.truthy (env_var env "JWT_SECRET") = true ->
  main env
  = Alive [ mongoose_connect
              ("mongodb://" ++ interpolate (env_var env "MONGO_URL"));
            connection_once "open"; connection_on "error";
            server_use "/graphql"; server_listen 3000 ] tt.
Proof.
  intros Hmongo Hsecret. unfold main, require_env.
  by rewrite Hmongo, Hsecret.
Qed.

(** Either check failing ends the script after one warning. *)
Lemma main_exits_early :
  JS.truthy (env_var env "MONGO_URL") = false
  \/ JS.truthy (env_var env "JWT_SECRET") = false ->
  exists msg, main env = Exited [console_warn msg] 1.
Proof.
  intros Hmissing.
  destruct (JS.truthy (env_var env "MONGO_URL")) eqn:Hmongo.
  - destruct Hmissing as [|Hsecret]; [done|].
    eexists. by apply main_without_jwt_secret.
  - eexists. by apply main_without_mongo_url.
Qed.

End startup.

(** C10: when MONGO_URL or JWT_SECRET is absent from the environment the
    start-up script prints one warning and exits with code 1, having opened
    no database connection and installed no request handler; the listener
    on port 3000 is reached only when both variables are set, and it is
    reached when both are set to non-empty values. *)
Theorem startup_requires_env (env : gmap string string) :
  (env !! "MONGO_URL" = None \/ env !! "JWT_SECRET" = None ->
     exit_code (main env) = Some 1%Z
     /\ (exists msg, trace (main env) = [console_warn msg])
     /\ Forall (fun e => serves e = false) (trace (main env)))
  /\ (server_listen 3000 ∈ trace (main env) ->
      is_Some (env !! "MONGO_URL") /\ is_Some (env !! "JWT_SECRET"))
  /\ (forall url secret,
        env !! "MONGO_URL" = Some url -> env !! "JWT_SECRET" = Some secret ->
        url <> "" -> secret <> "" ->
        main env
        = Alive [ mongoose_connect ("mongodb://" ++ url);
                  connection_once "open"; connection_on "error";
                  server_use "/graphql"; server_listen 3000 ] tt).
Proof.
  split; [|split].
  - intros Habsent.
    destruct (main_exits_early env) as [msg Hmain].
    { destruct Habsent as [Hnone|Hnone]; [left|right];
        by apply env_var_unset. }
    rewrite Hmain. cbn. split; [done|]. split; [by exists msg|].
    by repeat constructor.
  - intros Hlisten.
    destruct (JS.truthy (env_var env "MONGO_URL")) eqn:Hmongo;
      [destruct (JS.truthy (env_var env "JWT_SECRET")) eqn:Hsecret|].
    + apply env_var_truthy in Hmongo as (url & -> & _).
      apply env_var_truthy in Hsecret as (secret & -> & _). eauto.
    + rewrite (main_without_jwt_secret env Hmongo Hsecret) in Hlisten.
      cbn in Hlisten. rewrite elem_of_cons, elem_of_nil in Hlisten.
      by destruct Hlisten.
    + rewrite (main_without_mongo_url env Hmongo) in Hlisten.
      cbn in Hlisten. rewrite elem_of_cons, elem_of_nil in Hlisten.
      by destruct Hlisten.
  - intros url secret Hurl Hsecret Hu Hs.
    rewrite main_with_both.
    + unfold env_var. by rewrite Hurl.
    + unfold env_var. rewrite Hurl. cbn.
      by rewrite negb_true_iff, String.eqb_neq.
    + unfold env_var. rewrite Hsecret. cbn.
      by rewrite negb_true_iff, String.eqb_neq.
Qed.

(** C10, on a sample: with no JWT_SECRET the script warns and exits with
    code 1; with both variables it ends by listening on port 3000. *)
Lemma startup_requires_env_sample :
  exit_code (main (delete "JWT_SECRET" Sample.env)) = Some 1%Z
  /\ last (trace (main Sample.env)) = Some (server_listen 3000).
Proof.
  split.
  - apply (startup_requires_env (delete "JWT_SECRET" Sample.env)).
    right. apply lookup_delete_eq.
  - destruct (startup_requires_env Sample.env) as (_ & _ & Hboth).
    rewrite (Hboth "localhost:27017/klicker" "s3cret"); done.
Defined.

(** * Further properties of the two files *)

(** ** Object literals *)

Lemma object_foldl_lookup {A : Type} (props : list (string * A))
    (o : gmap string A) k v :
  foldl (fun o p => <[p.1 := p.2]> o) o props !! k = Some v ->
  (k, v) ∈ props \/ o !! k = Some v.
Proof.
  revert o. induction props as [|[k' v'] props IH]; intros o Hlook.
  - by right.
  - cbn in Hlook. apply IH in Hlook as [Hin|Hlook].
    + left. by apply list_elem_of_further.
    + cbn in Hlook. rewrite lookup_insert in Hlook.
      case_decide as Hk.
      * injection Hlook as <-. subst k'. left. apply list_elem_of_here.
      * by right.
Qed.

(** A property read off an object literal is one of the properties that
    the literal writes out. *)
Lemma object_lookup_listed {A : Type} (props : list (string * A)) k v :
  JS.object props !! k = Some v -> (k, v) ∈ props.
Proof.
  intros Hlook. apply object_foldl_lookup in Hlook as [Hin|Hempty]; [done|].
  by rewrite lookup_empty in Hempty.
Qed.

(** ** The guard over all root fields *)
Section root_fields.
Context `{Collaborators}.

(** How a root field is bound: directly when it is listed as unguarded,
    behind [requireAuth] otherwise. *)
Lemma root_binding o name resolver :
  root o !! name = Some resolver ->
  exists f, resolver = if bool_decide (name ∈ unguarded o)
                       then the f else requireAuth (the f).
Proof.
  intros Hlook.
  assert (Hall : forall props : list (string * Resolver),
            Forall (fun p => exists f,
                      p.2 = if bool_decide (p.1 ∈ unguarded o)
                            then the f else requireAuth (the f)) props ->
            JS.object props !! name = Some resolver ->
            exists f, resolver = if bool_decide (name ∈ unguarded o)
                                 then the f else requireAuth (the f)).
  { intros props Hprops Hin. apply object_lookup_listed in Hin.
    rewrite Forall_forall in Hprops. exact (Hprops _ Hin). }
  destruct o; (eapply Hall; [|exact Hlook]);
    repeat constructor; eexists; reflexivity.
Qed.

End root_fields.

Section declared_root_fields.
Context `{Collaborators}.

(** The root fields that the type definitions declare. *)
Lemma declared_resolved_or_activeInstances o name :
  name ∈ field_name <$> fields_of rootTypeDefs (root_type o) ->
  is_Some (root o !! name) \/ (o = query_op /\ name = "activeInstances").
Proof.
  revert name. apply Forall_forall.
  destruct o;
    repeat (apply Forall_cons; split;
            [first [ left; by eexists | right; by split ]|]);
    apply Forall_nil_2.
Qed.

Lemma unguarded_resolved o name :
  name ∈ unguarded o -> exists f, root o !! name = Some (the f).
Proof.
  revert name. apply Forall_forall.
  destruct o; repeat constructor; by eexists.
Qed.

Lemma resolved_declared o name :
  is_Some (root o !! name) ->
  name ∈ field_name <$> fields_of rootTypeDefs (root_type o).
Proof.
  intros [resolver Hlook].
  assert (Hall : forall props : list (string * Resolver),
            Forall (fun p => p.1 ∈ field_name
                               <$> fields_of rootTypeDefs (root_type o))
                   props ->
            JS.object props !! name = Some resolver ->
            name ∈ field_name <$> fields_of rootTypeDefs (root_type o)).
  { intros props Hprops Hin. apply object_lookup_listed in Hin.
    rewrite Forall_forall in Hprops. exact (Hprops _ Hin). }
  destruct o; (eapply Hall; [|exact Hlook]); repeat constructor.
Qed.

End declared_root_fields.

(** X1: in a context that fails the authenticated-owner predicate, each of
    the thirteen root fields bound without [requireAuth] (3 queries, 8
    mutations, both subscriptions) has a resolver and enters it; every other
    root field that the type definitions declare answers with the rejection
    and enters nothing, except the query [activeInstances], which has no
    resolver and is neither entered nor rejected; a name that no root type
    declares is not resolved; so a resolver is entered only for an
    unguarded field. *)
Theorem unauthenticated_enters_only_unguarded `{Collaborators} o args ctx :
  authenticated ctx = false ->
  (forall name, name ∈ unguarded o ->
     exists f, execute o name args ctx
               = Some (the f JS.Undefined args ctx))
  /\ (forall name,
        name ∈ field_name <$> fields_of rootTypeDefs (root_type o) ->
        name ∉ unguarded o ->
        execute o name args ctx = Some rejected
        \/ (o = query_op /\ name = "activeInstances"
            /\ execute o name args ctx = None))
  /\ (forall name,
        name ∉ field_name <$> fields_of rootTypeDefs (root_type o) ->
        execute o name args ctx = None)
  /\ (forall name r, execute o name args ctx = Some r -> calls r <> [] ->
        name ∈ unguarded o).
Proof.
  intros Hauth. split; [|split; [|split]].
  - intros name Hopen. apply unguarded_resolved in Hopen as [f Hf].
    exists f. unfold execute. apply fmap_Some. exists (the f). by split.
  - intros name Hdeclared Hguarded.
    apply declared_resolved_or_activeInstances in Hdeclared
      as [[resolver Hlook]|[-> ->]].
    + left. unfold execute. apply fmap_Some. exists resolver.
      split; [exact Hlook|].
      apply root_binding in Hlook as [f ->].
      rewrite bool_decide_eq_false_2 by done.
      symmetry. by apply requireAuth_rejects.
    + right. by repeat split.
  - intros name Hundeclared. unfold execute.
    destruct (root o !! name) as [resolver|] eqn:Hlook; [|done].
    destruct Hundeclared. apply resolved_declared. by eexists.
  - intros name r Hrun Hentered. unfold execute in Hrun.
    destruct (root o !! name) as [resolver|] eqn:Hlook; [|done].
    injection Hrun as <-.
    apply root_binding in Hlook as [f ->].
    case_bool_decide as Hopen; [done|].
    by rewrite requireAuth_rejects in Hentered.
Qed.

(** X1, on a sample: anonymous callers enter login and are rejected by
    changePassword. *)
Lemma unauthenticated_enters_only_unguarded_sample :
  (exists f, @execute Sample.collaborators mutation_op "login" ∅
               Sample.anonymous
             = Some (@the Sample.collaborators f JS.Undefined ∅
                       Sample.anonymous))
  /\ @execute Sample.collaborators mutation_op "changePassword" ∅
       Sample.anonymous = Some rejected.
Proof.
  destruct (@unauthenticated_enters_only_unguarded Sample.collaborators
              mutation_op ∅ Sample.anonymous eq_refl)
    as (Hopen & Hguarded & _).
  split.
  - apply Hopen. cbn. listed.
  - destruct (Hguarded "changePassword") as [Hr|(Ho & _)];
      [cbn; listed| |exact Hr|discriminate Ho].
    cbn. rewrite !elem_of_cons, elem_of_nil. intuition discriminate.
Defined.

(** X2: the resolver map adds nothing but the guard.  Whatever root field is
    resolved, the answer is either the rejection, and then the context fails
    the predicate and the field is a guarded one, or exactly the run of one
    imported resolver on the same arguments and context with an undefined
    parent; in an authenticated context no root field is ever rejected. *)
Theorem root_fields_reject_or_forward `{Collaborators} o name args ctx r :
  execute o name args ctx = Some r ->
  ((r = rejected /\ authenticated ctx = false /\ name ∉ unguarded o)
   \/ exists f, r = {| calls := [f];
                       outcome := Resolved (body f JS.Undefined args ctx) |})
  /\ (authenticated ctx = true -> outcome r <> Rejected).
Proof.
  intros Hrun. unfold execute in Hrun.
  destruct (root o !! name) as [resolver|] eqn:Hlook; [|done].
  injection Hrun as <-.
  apply root_binding in Hlook as [f ->].
  case_bool_decide as Hopen.
  - split; [right; by exists f|done].
  - unfold requireAuth. destruct (authenticated ctx) eqn:Hauth.
    + split; [right; by exists f|done].
    + split; [by left|done].
Qed.

(** X2, on a sample: for the signed-in owner, createSession forwards to its
    resolver. *)
Lemma root_fields_reject_or_forward_sample :
  outcome (@requireAuth Sample.collaborators
             (@the Sample.collaborators createSession)
             JS.Undefined ∅ Sample.owner_context) <> Rejected.
Proof.
  apply (@root_fields_reject_or_forward Sample.collaborators mutation_op
           "createSession" ∅ Sample.owner_context); reflexivity.
Defined.

(** ** The schema against the resolver map *)

Lemma root_resolvers_declared `{Collaborators} o :
  forall props : list (string * Resolver),
    Forall (fun p => p.1 ∈ field_name <$> fields_of rootTypeDefs (root_type o))
           props ->
    forall name, is_Some (JS.object props !! name) ->
      name ∈ field_name <$> fields_of rootTypeDefs (root_type o).
Proof.
  intros props Hprops name [resolver Hlook].
  apply object_lookup_listed in Hlook.
  rewrite Forall_forall in Hprops. exact (Hprops _ Hlook).
Qed.

(** X3: the resolver map and the root type definitions agree.  Every key of
    [resolvers.Query], [resolvers.Mutation] and [resolvers.Subscription] is a
    field declared by the corresponding root type; every declared root field
    has a resolver, except the query [activeInstances], which has none; and
    no root type declares a field twice. *)
Theorem root_fields_match_resolvers `{Collaborators} (o : operation) :
  (forall name, is_Some (root o !! name) ->
     name ∈ field_name <$> fields_of rootTypeDefs (root_type o))
  /\ (forall name,
        name ∈ field_name <$> fields_of rootTypeDefs (root_type o) ->
        is_Some (root o !! name)
        \/ (o = query_op /\ name = "activeInstances"))
  /\ Query !! "activeInstances" = None
  /\ NoDup (field_name <$> fields_of rootTypeDefs (root_type o)).
Proof.
  split; [|split; [|split]].
  - destruct o; unfold root, Query, Mutation, Subscription;
      apply root_resolvers_declared; repeat constructor.
  - intros name. revert name. apply Forall_forall.
    destruct o;
      repeat (apply Forall_cons; split;
              [first [ left; by eexists | right; by split ]|]);
      apply Forall_nil_2.
  - reflexivity.
  - destruct o; apply (bool_decide_unpack _); by vm_compute.
Qed.
(** X3, on a sample: [activeInstances] is declared and cannot be
    resolved. *)
Lemma root_fields_match_resolvers_sample :
  "activeInstances" ∈ field_name <$> fields_of rootTypeDefs "Query"
  /\ @execute Sample.collaborators query_op "activeInstances" ∅
       Sample.anonymous = None.
Proof.
  destruct (@root_fields_match_resolvers Sample.collaborators query_op)
    as (_ & _ & Hnone & _).
  split; [cbn; listed|].
  unfold execute. apply fmap_None. exact Hnone.
Defined.

(** X4: a mutation declares the fingerprint argument [fp] exactly when it is
    one of the three participant writes; there the argument is the optional
    [fp: ID] and the mutation is bound without the guard.  No guarded
    mutation, no query and no subscription takes a fingerprint. *)
Theorem fingerprint_only_on_participant_writes (f : field) :
  (f ∈ fields_of rootTypeDefs "Mutation" ->
     (takes "fp" f = true <-> field_name f ∈ participant_writes.*1)
     /\ (takes "fp" f = true ->
         arg "fp" ID ∈ field_args f
         /\ field_name f ∈ unguarded mutation_op))
  /\ (f ∈ fields_of rootTypeDefs "Query"
      \/ f ∈ fields_of rootTypeDefs "Subscription" ->
      takes "fp" f = false).
Proof.
  split.
  - revert f. apply Forall_forall.
    repeat (apply Forall_cons; split;
            [ split;
              [ split; [ first [ intros _; cbn; listed
                               | intros Hfp; discriminate Hfp ]
                       | first [ intros _; reflexivity
                               | cbn; rewrite !elem_of_cons, elem_of_nil;
                                 intuition discriminate ] ]
              | first [ intros Hfp; discriminate Hfp
                      | intros _; split; cbn; listed ] ]
            | ]).
    apply Forall_nil_2.
  - intros [Hf|Hf]; revert f Hf; apply Forall_forall;
      repeat constructor.
Qed.

(** X4, on a sample: addResponse takes the optional fingerprint and is
    unguarded. *)
Lemma fingerprint_only_on_participant_writes_sample :
  arg "fp" ID
    ∈ field_args
        (fld "addResponse"
           [arg "fp" ID; arg "instanceId" (NonNull ID);
            arg "response" (NonNull (Named "QuestionInstance_ResponseInput"))]
           (NonNull String'))
  /\ "addResponse" ∈ unguarded mutation_op.
Proof.
  eapply fingerprint_only_on_participant_writes; [|reflexivity].
  cbn. listed.
Defined.


(** ** The resolvers of the option types *)

(** X5: [QuestionOptions.__resolveType] names a type exactly when one of
    FREE_RANGE, SC and MC is truthy; FREE_RANGE decides for the free type
    whatever SC and MC hold, and multiple-choice options (MC alone) resolve
    to the single-choice type. *)
Theorem questionOptions_dispatch (obj : gmap string JS.value) :
  (is_Some (QuestionOptions__resolveType obj)
     <-> JS.truthy (JS.get obj "FREE_RANGE") = true
         \/ JS.truthy (JS.get obj "SC") = true
         \/ JS.truthy (JS.get obj "MC") = true)
  /\ (QuestionOptions__resolveType obj = Some "FREEQuestionOptions"
     <-> JS.truthy (JS.get obj "FREE_RANGE") = true)
  /\ (QuestionOptions__resolveType obj = Some "SCQuestionOptions"
     <-> JS.truthy (JS.get obj "FREE_RANGE") = false
         /\ (JS.truthy (JS.get obj "SC") = true
             \/ JS.truthy (JS.get obj "MC") = true)).
Proof.
  unfold QuestionOptions__resolveType.
  destruct (JS.truthy (JS.get obj "FREE_RANGE")),
           (JS.truthy (JS.get obj "SC")),
           (JS.truthy (JS.get obj "MC")); cbn;
    (split; [|split]); split;
    first [ by eauto | intros [? ?]; done | intros [?|[?|?]]; done
          | intros [? [?|?]]; done | done ].
Qed.

(** X5, on a sample: options that carry MC alone resolve to the
    single-choice type. *)
Lemma questionOptions_dispatch_sample :
  QuestionOptions__resolveType
    (JS.object [("MC", JS.Obj (JS.object [("choices", JS.Arr [])]))])
  = Some "SCQuestionOptions".
Proof.
  apply questionOptions_dispatch. split; [by vm_compute|].
  right. by vm_compute.
Defined.

(** X6: the public resolver of the option types takes the same decision as
    the private one on every object: it names the type that the private one
    names, with [_Public] appended, and none when that one names none. *)
Theorem questionOptions_public_agrees (obj : gmap string JS.value) :
  QuestionOptions_Public__resolveType obj
  = (fun t => t ++ "_Public") <$> QuestionOptions__resolveType obj.
Proof.
  unfold QuestionOptions_Public__resolveType, QuestionOptions__resolveType.
  by destruct (JS.truthy (JS.get obj "FREE_RANGE")),
              (JS.truthy (JS.get obj "SC")),
              (JS.truthy (JS.get obj "MC")).
Qed.

(** ** The resolvers of the object types *)
Section object_types.
Context `{Collaborators}.
Variable String : JS.value -> string.

Lemma unguarded_literal (props : list (string * Resolver)) k resolver :
  Forall (fun p => exists f, p.2 = the f) props ->
  JS.object props !! k = Some resolver ->
  exists f, resolver = the f.
Proof.
  intros Hprops Hlook. apply object_lookup_listed in Hlook.
  rewrite Forall_forall in Hprops. exact (Hprops _ Hlook).
Qed.

Lemma resolvers_fields typeName m :
  resolvers String !! typeName = Some (fields m) ->
  (typeName, m)
    ∈ [ ("Query", Query); ("Mutation", Mutation);
        ("Subscription", Subscription);
        ("Question", Types.Question);
        ("QuestionInstance", Types.QuestionInstance String);
        ("QuestionInstance_Public", Types.QuestionInstance_Public);
        ("Question_Version", Types.Question_Version);
        ("Question_Version_Public", Types.Question_Version_Public);
        ("Session", Types.Session);
        ("Session_QuestionBlock", Types.Session_QuestionBlock);
        ("Session_QuestionBlock_Public", Types.Session_QuestionBlock_Public);
        ("Tag", Types.Tag); ("User", Types.User) ].
Proof.
  intros Hlook. apply object_lookup_listed in Hlook.
  rewrite !elem_of_cons, elem_of_nil in Hlook.
  repeat (destruct Hlook as [Heq|Hlook];
          [ first [ discriminate Heq | injection Heq as -> <-; listed ] | ]).
  done.
Qed.

End object_types.

(** X7: below the roots nothing is guarded.  A field of an object type
    (and of the subscription root) is never answered with the rejection of
    [requireAuth], whatever the context: the answer is the run of one
    imported resolver on the parent, the arguments and the context as they
    were given, or, for [QuestionInstance.session], a conversion that enters
    no imported resolver. *)
Theorem type_resolvers_never_guarded `{Collaborators}
    (String : JS.value -> string) typeName fieldName pv args ctx r :
  typeName <> "Query" -> typeName <> "Mutation" ->
  resolve String typeName fieldName pv args ctx = Some r ->
  outcome r <> Rejected
  /\ ((exists f, r = the f pv args ctx)
      \/ (typeName = "QuestionInstance" /\ fieldName = "session"
          /\ calls r = [])).
Proof.
  intros Hquery Hmutation Hrun. unfold resolve in Hrun.
  destruct (resolvers String !! typeName) as [[?|m|?]|] eqn:Htype;
    try discriminate Hrun.
  destruct (m !! fieldName) as [resolver|] eqn:Hfield; [|done].
  injection Hrun as <-.
  apply resolvers_fields in Htype.
  rewrite !elem_of_cons, elem_of_nil in Htype.
  destruct Htype as [[= -> _]|[[= -> _]|Htype]]; [done|done|].
  assert (Hbare : (exists f, resolver = the f)
                  \/ (typeName = "QuestionInstance" /\ fieldName = "session"
                      /\ resolver = Types.QuestionInstance_session String)).
  { repeat (destruct Htype as [[= -> ->]|Htype];
            [ first
                [ left; eapply unguarded_literal; [|exact Hfield];
                  repeat constructor; by eexists
                | apply object_lookup_listed in Hfield;
                  rewrite !elem_of_cons, elem_of_nil in Hfield;
                  destruct Hfield as [[= -> ->]|[[= -> ->]|[[= -> ->]|
                                      [[= -> ->]|[]]]]];
                  [left; by eexists|left; by eexists|left; by eexists|];
                  right; done ]
            | ]).
    done. }
  destruct Hbare as [[f ->]|(-> & -> & ->)].
  - split; [done|]. left. by exists f.
  - split; [done|]. right. done.
Qed.

(** X7, on a sample: the results of a public question instance are
    resolved for an anonymous caller. *)
Lemma type_resolvers_never_guarded_sample :
  outcome (@the Sample.collaborators resultsByPV JS.Null ∅ Sample.anonymous)
  <> Rejected.
Proof.
  apply (@type_resolvers_never_guarded Sample.collaborators
           (fun _ => "id") "QuestionInstance_Public" "results" JS.Null ∅
           Sample.anonymous); done.
Defined.

(** X8: the public variants of the object types reuse the resolvers of the
    private ones.  Whatever a field of [QuestionInstance_Public],
    [Question_Version_Public] or [Session_QuestionBlock_Public] resolves to,
    the same field of the private type resolves to the same run; and the
    public question instance has no resolver for [responses] and
    [session], which the private one has. *)
Theorem public_types_reuse_private_resolvers `{Collaborators}
    (String : JS.value -> string) :
  (forall public private,
     (public, private)
       ∈ [ ("QuestionInstance_Public", "QuestionInstance");
           ("Question_Version_Public", "Question_Version");
           ("Session_QuestionBlock_Public", "Session_QuestionBlock") ] ->
     forall fieldName pv args ctx r,
       resolve String public fieldName pv args ctx = Some r ->
       resolve String private fieldName pv args ctx = Some r)
  /\ (forall fieldName pv args ctx,
        fieldName ∈ ["responses"; "session"] ->
        resolve String "QuestionInstance_Public" fieldName pv args ctx = None
        /\ is_Some
             (resolve String "QuestionInstance" fieldName pv args ctx)).
Proof.
  split.
  - intros public private Hpair fieldName pv args ctx r Hrun.
    rewrite !elem_of_cons, elem_of_nil in Hpair.
    destruct Hpair as [[= -> ->]|[[= -> ->]|[[= -> ->]|[]]]];
      unfold resolve in *.
    + change (resolvers String !! "QuestionInstance_Public")
        with (Some (fields Types.QuestionInstance_Public)) in Hrun.
      change (resolvers String !! "QuestionInstance")
        with (Some (fields (Types.QuestionInstance String))).
      cbv beta iota in Hrun |- *.
      destruct (Types.QuestionInstance_Public !! fieldName)
        as [resolver|] eqn:Hfield; [|done].
      apply object_lookup_listed in Hfield.
      rewrite !elem_of_cons, elem_of_nil in Hfield.
      destruct Hfield as [[= -> ->]|[[= -> ->]|[]]]; exact Hrun.
    + exact Hrun.
    + exact Hrun.
  - intros fieldName pv args ctx Hfield.
    rewrite !elem_of_cons, elem_of_nil in Hfield.
    destruct Hfield as [->|[->|[]]]; split; first [reflexivity | by eexists].
Qed.

(** X8, on a sample: the raw responses of a public question instance have
    no resolver. *)
Lemma public_types_reuse_private_resolvers_sample :
  @resolve Sample.collaborators (fun _ => "id") "QuestionInstance_Public"
    "responses" JS.Null ∅ Sample.anonymous = None.
Proof.
  apply (@public_types_reuse_private_resolvers Sample.collaborators
           (fun _ => "id")).
  listed.
Defined.

(** ** Splitting the Authorization header *)

Lemma append_empty (s : string) : s ++ "" = s.
Proof.
  induction s as [|c s IH]; [reflexivity|].
  change (String c (s ++ "") = String c s). by rewrite IH.
Qed.

Lemma split_not_nil sep s : JS.split sep s <> [].
Proof.
  destruct s as [|c s]; cbn; [done|].
  destruct (Ascii.eqb c sep); [done|].
  by destruct (JS.split sep s).
Qed.

(** The first part of a split holds no separator, and the string is that
    part alone or that part, the separator and the string that the other
    parts come from. *)
Lemma split_first sep s w ws :
  JS.split sep s = w :: ws ->
  JS.includes sep w = false
  /\ ((ws = [] /\ s = w)
      \/ exists s', s = w ++ String sep s' /\ JS.split sep s' = ws).
Proof.
  revert w ws. induction s as [|c s IH]; intros w ws Hsplit.
  - injection Hsplit as <- <-. split; [done|]. by left.
  - cbn in Hsplit. destruct (Ascii.eqb c sep) eqn:Hc.
    + apply Ascii.eqb_eq in Hc as ->.
      injection Hsplit as <- <-. split; [done|]. right. by exists s.
    + destruct (JS.split sep s) as [|w' ws'] eqn:Hrest.
      { by destruct (split_not_nil sep s). }
      injection Hsplit as <- <-.
      destruct (IH w' ws' eq_refl) as [Hfree Hshape].
      split; [cbn; by rewrite Hc|].
      destruct Hshape as [[-> ->]|(s' & -> & Hs')].
      * by left.
      * right. by exists s'.
Qed.

(** ** What [getToken] returns *)
Section token_sources.
Context `{Collaborators}.
Variable env : gmap string string.

Lemma getToken_header req a :
  (forall jwt, ~ valid_cookie env req jwt) ->
  valid_bearer req a ->
  getToken env req = JS.index (JS.split " " a) 1.
Proof.
  intros Hcookie Hbearer. unfold getToken.
  destruct (cookie_jwt env req) as [jwt|] eqn:Hc.
  { apply cookie_jwt_spec in Hc. by destruct (Hcookie jwt). }
  apply bearer_header_spec in Hbearer. by rewrite Hbearer.
Qed.

Lemma bearer_shape a rest :
  JS.split " " a = "Bearer" :: rest ->
  (a = "Bearer" /\ JS.index (JS.split " " a) 1 = JS.Undefined)
  \/ exists t more,
       a = "Bearer " ++ t ++ more
       /\ JS.includes " " t = false
       /\ (more = "" \/ exists m, more = " " ++ m)
       /\ JS.index (JS.split " " a) 1 = JS.Str t.
Proof.
  intros Hsplit. rewrite Hsplit.
  apply split_first in Hsplit as [_ [[-> ->]|(a' & -> & Hrest)]].
  - by left.
  - right. destruct rest as [|t rest'].
    { by destruct (split_not_nil " " a'). }
    apply split_first in Hrest as [Hfree [[-> ->]|(a'' & -> & _)]].
    + exists t, "". split; [by rewrite append_empty|]. eauto.
    + exists t, (" " ++ a''). repeat split; eauto.
Qed.

Lemma getToken_shape req :
  getToken env req = JS.Null \/ getToken env req = JS.Undefined
  \/ exists t, getToken env req = JS.Str t.
Proof.
  unfold getToken.
  destruct (cookie_jwt env req) as [jwt|]; [right; right; by exists jwt|].
  destruct (bearer_header req) as [a|]; [|by left].
  unfold JS.index. destruct (JS.split " " a !! 1) as [t|].
  - right. right. by exists t.
  - right. by left.
Qed.

End token_sources.

(** X9: when no valid cookie is present (no cookie object, no [jwt] cookie,
    an empty or an invalid one), an Authorization header that passes the
    check decides: the token is the text between ["Bearer "] and the next
    space or the end of the header, it holds no space, and what follows it
    is dropped; a header that is the word [Bearer] alone yields
    [undefined]. *)
Theorem getToken_bearer_token `{Collaborators}
    (env : gmap string string) (req : Request) (a : string) :
  (forall jwt, ~ valid_cookie env req jwt) ->
  valid_bearer req a ->
  (a = "Bearer" /\ getToken env req = JS.Undefined)
  \/ exists t more,
       a = "Bearer " ++ t ++ more
       /\ JS.includes " " t = false
       /\ (more = "" \/ exists m, more = " " ++ m)
       /\ getToken env req = JS.Str t.
Proof.
  intros Hcookie Hbearer.
  rewrite (getToken_header env req a Hcookie Hbearer).
  destruct Hbearer as (_ & [rest Hsplit] & _).
  exact (bearer_shape a rest Hsplit).
Qed.

(** X10: [getToken] answers null exactly when the request has neither a
    valid cookie nor an Authorization header that passes the check; it never
    answers anything but null, [undefined] or a string; and a string it
    answers is either the valid, non-empty [jwt] cookie or, when there is no
    valid cookie, the second word of the accepted header: the second part of
    its split at spaces, which holds no space, follows ["Bearer "] at once
    and ends at the next space or at the end of the header. *)
Theorem getToken_sources `{Collaborators}
    (env : gmap string string) (req : Request) :
  (getToken env req = JS.Null
     <-> (forall jwt, ~ valid_cookie env req jwt)
         /\ (forall a, ~ valid_bearer req a))
  /\ (getToken env req = JS.Null \/ getToken env req = JS.Undefined
      \/ exists t, getToken env req = JS.Str t)
  /\ (forall t, getToken env req = JS.Str t ->
        (valid_cookie env req t /\ t <> "")
        \/ ((forall jwt, ~ valid_cookie env req jwt)
            /\ exists a more,
                 valid_bearer req a
                 /\ JS.split " " a !! 1 = Some t
                 /\ JS.includes " " t = false
                 /\ a = "Bearer " ++ t ++ more
                 /\ (more = "" \/ exists m, more = " " ++ m))).
Proof.
  destruct (cookie_jwt env req) as [jwt|] eqn:Hc.
  - assert (Hvalid : valid_cookie env req jwt) by by apply cookie_jwt_spec.
    assert (Htoken : getToken env req = JS.Str jwt).
    { unfold getToken. by rewrite Hc. }
    rewrite Htoken. split; [|split].
    + split; [done|]. intros [Hnone _]. by destruct (Hnone jwt).
    + right. right. by exists jwt.
    + intros t [= <-]. left. split; [done|].
      by destruct Hvalid as (_ & _ & _ & Hne & _).
  - assert (Hcookie : forall jwt, ~ valid_cookie env req jwt).
    { intros jwt Hvalid. apply cookie_jwt_spec in Hvalid. congruence. }
    destruct (bearer_header req) as [a|] eqn:Hb.
    + assert (Hbearer : valid_bearer req a) by by apply bearer_header_spec.
      pose proof (getToken_header env req a Hcookie Hbearer) as Hheader.
      pose proof Hbearer as (Hauth & [rest Hsplit] & Hvalid).
      destruct (bearer_shape a rest Hsplit)
        as [[Ha Htoken]|(t & more & Ha & Hfree & Hmore & Htoken)];
        rewrite Hheader, Htoken; (split; [|split]).
      * split; [done|]. intros [_ Hnone]. by destruct (Hnone a).
      * right. by left.
      * done.
      * split; [done|]. intros [_ Hnone]. by destruct (Hnone a).
      * right. right. by exists t.
      * intros t' [= <-]. right. split; [done|]. exists a, more.
        split; [done|]. split; [|done].
        unfold JS.index in Htoken.
        destruct (JS.split " " a !! 1) as [w|]; [|done].
        by injection Htoken as ->.
    + assert (Hnone : forall a, ~ valid_bearer req a).
      { intros a Hvalid. apply bearer_header_spec in Hvalid. congruence. }
      rewrite (getToken_null env req Hcookie Hnone).
      split; [|split]; [done|by left|done].
Qed.

(** X9, on a sample: with no cookie, the header
    ["Bearer abc.def.ghi trailing"] yields a token without the trailing
    words. *)
Lemma getToken_bearer_token_sample :
  ("Bearer abc.def.ghi trailing" = "Bearer"
   /\ @getToken Sample.lenient Sample.env Sample.bearer_only = JS.Undefined)
  \/ exists t more,
       "Bearer abc.def.ghi trailing" = "Bearer " ++ t ++ more
       /\ JS.includes " " t = false
       /\ (more = "" \/ exists m, more = " " ++ m)
       /\ @getToken Sample.lenient Sample.env Sample.bearer_only = JS.Str t.
Proof.
  apply (@getToken_bearer_token Sample.lenient Sample.env Sample.bearer_only).
  - intros jwt (c & Hc & _). discriminate Hc.
  - split; [by vm_compute|]. split; [|by vm_compute].
    exists ["abc.def.ghi"; "trailing"]. by vm_compute.
Defined.

(** X10, on a sample: the token of the request that carries a header
    alone is the second word of that header. *)
Lemma getToken_sources_sample :
  (valid_cookie (H := Sample.lenient) Sample.env Sample.bearer_only
     "abc.def.ghi" /\ "abc.def.ghi" <> "")
  \/ ((forall jwt,
         ~ valid_cookie (H := Sample.lenient) Sample.env Sample.bearer_only
             jwt)
      /\ exists a more,
           valid_bearer (H := Sample.lenient) Sample.bearer_only a
           /\ JS.split " " a !! 1 = Some "abc.def.ghi"
           /\ JS.includes " " "abc.def.ghi" = false
           /\ a = "Bearer " ++ "abc.def.ghi" ++ more
           /\ (more = "" \/ exists m, more = " " ++ m)).
Proof.
  destruct (@getToken_sources Sample.lenient Sample.env Sample.bearer_only)
    as (_ & _ & Hsource).
  apply (Hsource "abc.def.ghi"). by vm_compute.
Defined.

(** ** Start-up, once more *)

Lemma usable_truthy (env : gmap string string) name :
  usable env name <-> JS.truthy (env_var env name) = true.
Proof.
  split; [|apply env_var_truthy].
  intros (s & Hs & Hne). unfold env_var. rewrite Hs. cbn.
  by rewrite negb_true_iff, String.eqb_neq.
Qed.

Lemma unusable_falsy (env : gmap string string) name :
  ~ usable env name <-> JS.truthy (env_var env name) = false.
Proof. rewrite usable_truthy. by destruct (JS.truthy (env_var env name)). Qed.

(** X13: the start-up script goes on exactly when MONGO_URL and JWT_SECRET
    are both set to a non-empty string.  A variable that is set to the empty
    string counts as missing; the only exit code is 1, and a run that exits
    has opened no connection and installed no handler. *)
Theorem startup_goes_on_iff_usable (env : gmap string string) :
  (exit_code (main env) = None
     <-> usable env "MONGO_URL" /\ usable env "JWT_SECRET")
  /\ (exit_code (main env) = Some 1%Z
     <-> ~ (usable env "MONGO_URL" /\ usable env "JWT_SECRET"))
  /\ (forall code, exit_code (main env) = Some code ->
        code = 1%Z /\ Forall (fun e => serves e = false) (trace (main env)))
  /\ (env !! "MONGO_URL" = Some "" \/ env !! "JWT_SECRET" = Some "" ->
      exit_code (main env) = Some 1%Z).
Proof.
  rewrite !usable_truthy.
  assert (Hempty : forall name, env !! name = Some "" ->
                     JS.truthy (env_var env name) = false).
  { intros name Hname. unfold env_var. by rewrite Hname. }
  destruct (JS.truthy (env_var env "MONGO_URL")) eqn:Hmongo;
    [destruct (JS.truthy (env_var env "JWT_SECRET")) eqn:Hsecret|].
  - rewrite (main_with_both env Hmongo Hsecret). cbn.
    split; [done|]. split; [split; [done|tauto]|]. split; [done|].
    intros [Hm|Hs]; [apply Hempty in Hm|apply Hempty in Hs]; congruence.
  - rewrite (main_without_jwt_secret env Hmongo Hsecret). cbn.
    split; [split; [done|by intros [_ ?]]|].
    split; [split; [by intros _ [_ ?]|done]|].
    split; [|done]. intros code [= <-]. split; [done|].
    by repeat constructor.
  - rewrite (main_without_mongo_url env Hmongo). cbn.
    split; [split; [done|by intros [? _]]|].
    split; [split; [by intros _ [? _]|done]|].
    split; [|done]. intros code [= <-]. split; [done|].
    by repeat constructor.
Qed.

(** X13, on a sample: an empty JWT_SECRET stops the script with code 1. *)
Lemma startup_goes_on_iff_usable_sample :
  exit_code (main (<["JWT_SECRET" := ""]> Sample.env)) = Some 1%Z.
Proof.
  apply (startup_goes_on_iff_usable (<["JWT_SECRET" := ""]> Sample.env)).
  right. apply lookup_insert_eq.
Defined.

(** X14: the script reports one variable at most, MONGO_URL first.  When
    MONGO_URL is unusable the only effect is the MONGO_URL warning, whatever
    JWT_SECRET holds; the JWT_SECRET warning is printed exactly when
    MONGO_URL is usable and JWT_SECRET is not; and no run prints two
    warnings or throws. *)
Theorem startup_reports_first_unusable (env : gmap string string) :
  (~ usable env "MONGO_URL" ->
     trace (main env)
     = [console_warn
          "> Error: Please pass the MONGO_URL as an environment variable."])
  /\ (console_warn
        "> Error: Please pass the JWT_SECRET as an environment variable."
        ∈ trace (main env)
      <-> usable env "MONGO_URL" /\ ~ usable env "JWT_SECRET")
  /\ (forall msg msg',
        console_warn msg ∈ trace (main env) ->
        console_warn msg' ∈ trace (main env) -> msg = msg')
  /\ (forall err, throw err ∉ trace (main env)).
Proof.
  rewrite !unusable_falsy, usable_truthy.
  destruct (JS.truthy (env_var env "MONGO_URL")) eqn:Hmongo;
    [destruct (JS.truthy (env_var env "JWT_SECRET")) eqn:Hsecret|].
  - rewrite (main_with_both env Hmongo Hsecret). cbn.
    split; [done|].
    split; [split; [|by intros [_ ?]]|split].
    + rewrite !elem_of_cons, elem_of_nil. intuition discriminate.
    + intros msg msg'. rewrite !elem_of_cons, elem_of_nil.
      intuition discriminate.
    + intros err. rewrite !elem_of_cons, elem_of_nil.
      intuition discriminate.
  - rewrite (main_without_jwt_secret env Hmongo Hsecret). cbn.
    split; [done|].
    split; [split; [done|intros _; apply list_elem_of_here]|split].
    + intros msg msg' Hmsg Hmsg'.
      apply list_elem_of_singleton in Hmsg, Hmsg'. congruence.
    + intros err. rewrite !elem_of_cons, elem_of_nil.
      intuition discriminate.
  - rewrite (main_without_mongo_url env Hmongo). cbn.
    split; [done|].
    split; [split; [|by intros [? _]]|split].
    + rewrite !elem_of_cons, elem_of_nil. intuition discriminate.
    + intros msg msg' Hmsg Hmsg'.
      apply list_elem_of_singleton in Hmsg, Hmsg'. congruence.
    + intros err. rewrite !elem_of_cons, elem_of_nil.
      intuition discriminate.
Qed.

(** X14, on a sample: with neither variable set, only MONGO_URL is
    reported. *)
Lemma startup_reports_first_unusable_sample :
  trace (main ∅)
  = [console_warn
       "> Error: Please pass the MONGO_URL as an environment variable."].
Proof.
  apply (startup_reports_first_unusable ∅).
  intros (s & Hs & _). by rewrite lookup_empty in Hs.
Defined.

(** X6, on a sample: free-range options resolve to the public free type. *)
Lemma questionOptions_public_agrees_sample :
  QuestionOptions_Public__resolveType
    (JS.object [("FREE_RANGE", JS.Obj ∅)])
  = Some "FREEQuestionOptions_Public".
Proof.
  rewrite (questionOptions_public_agrees
             (JS.object [("FREE_RANGE", JS.Obj ∅)])).
  by vm_compute.
Defined.

(** X15: the secret plays no part in the header path.  For a request
    without a [jwt] cookie, or with an empty one, the answer of [getToken]
    is the same under every environment: [JWT_SECRET] is used to check the
    cookie only, and the header is checked without it. *)
Theorem header_token_ignores_secret `{Collaborators}
    (env env' : gmap string string) (req : Request) :
  (forall c, cookies req = Some c ->
             c !! "jwt" = None \/ c !! "jwt" = Some "") ->
  getToken env req = getToken env' req.
Proof.
  intros Hcookie.
  assert (Hnone : forall e, cookie_jwt e req = None).
  { intros e. unfold cookie_jwt.
    destruct (cookies req) as [c|]; [cbn|done].
    by destruct (Hcookie c eq_refl) as [-> | ->]. }
  unfold getToken. by rewrite !Hnone.
Qed.

(** X15, on a sample: the token of a request that carries a header alone
    does not change when the secret does. *)
Lemma header_token_ignores_secret_sample :
  @getToken Sample.lenient Sample.env Sample.bearer_only
  = @getToken Sample.lenient ∅ Sample.bearer_only.
Proof.
  apply (@header_token_ignores_secret Sample.lenient Sample.env ∅
           Sample.bearer_only).
  intros c Hc. discriminate Hc.
Defined.
